(** * Gurukul edge gatekeeper: Backend/middleware/security.py

    A shallow embedding of [SecurityMiddleware] (rate limiter, request
    validator, header policy, audit logger and the [dispatch] pipeline)
    together with the properties its specification states about it.

    Text is modelled as [string]: one character per code point below 256,
    which is exactly what a header decoded as latin-1 holds. *)

From Stdlib Require Import ZArith Bool Ascii String List Lia DecimalString.
From stdpp Require Import base option gmap strings list fin_maps.

Open Scope string_scope.
Open Scope Z_scope.

(** ** Python text primitives used by the middleware *)

Module PyStr.

Definition code (c : ascii) : Z := Z.of_N (N_of_ascii c).

(** [str.lower] on one code point below 256: A-Z, and the accented
    capitals 0xC0-0xDE apart from the multiplication sign 0xD7. *)
Definition lower_char (c : ascii) : ascii :=
  let n := code c in
  if ((65 <=? n) && (n <=? 90))
     || ((192 <=? n) && (n <=? 222) && negb (n =? 215))
  then ascii_of_N (Z.to_N (n + 32))
  else c.

Fixpoint lower (s : string) : string :=
  match s with
  | EmptyString => EmptyString
  | String c r => String (lower_char c) (lower r)
  end.

(** [pat in s]: some suffix of [s] starts with [pat]. *)
Fixpoint contains (pat s : string) : bool :=
  String.prefix pat s ||
  match s with
  | EmptyString => false
  | String _ r => contains pat r
  end.

(** [str.isspace] below 256. *)
Definition is_space (c : ascii) : bool :=
  let n := code c in
  ((9 <=? n) && (n <=? 13)) || ((28 <=? n) && (n <=? 32))
  || (n =? 133) || (n =? 160).

Fixpoint lstrip (s : string) : string :=
  match s with
  | EmptyString => EmptyString
  | String c r => if is_space c then lstrip r else s
  end.

Fixpoint rstrip (s : string) : string :=
  match s with
  | EmptyString => EmptyString
  | String c r =>
      match rstrip r with
      | EmptyString => if is_space c then EmptyString else String c EmptyString
      | r' => String c r'
      end
  end.

(** [s.strip()] *)
Definition strip (s : string) : string := rstrip (lstrip s).

(** [s.split(sep)[0]] for a one-character separator. *)
Fixpoint split_head (sep : ascii) (s : string) : string :=
  match s with
  | EmptyString => EmptyString
  | String c r => if Ascii.eqb c sep then EmptyString else String c (split_head sep r)
  end.

(** Truth value of a string: non-empty. *)
Definition truthy (s : string) : bool :=
  match s with EmptyString => false | _ => true end.

Definition is_digit (c : ascii) : bool :=
  let n := code c in (48 <=? n) && (n <=? 57).

(** Digits with single underscores between them; [after_digit] tells
    whether the previous character was a digit. *)
Fixpoint digits (s : string) (acc : Z) (after_digit : bool) : option Z :=
  match s with
  | EmptyString => if after_digit then Some acc else None
  | String c r =>
      if is_digit c then digits r (10 * acc + (code c - 48)) true
      else if Ascii.eqb c "_"%char && after_digit then digits r acc false
      else None
  end.

Fixpoint count_digits (s : string) : Z :=
  match s with
  | EmptyString => 0
  | String c r => (if is_digit c then 1 else 0) + count_digits r
  end.

(** The interpreter's cap on the length of a decimal literal. *)
Definition int_max_str_digits : Z := 4300.

(** The blanks [int] skips at both ends of a text: tab to carriage
    return and space, and of the code points from 128 on those that are
    white space, 0x85 and 0xA0. The separators 0x1C to 0x1F are not. *)
Definition is_int_space (c : ascii) : bool :=
  let n := code c in
  ((9 <=? n) && (n <=? 13)) || (n =? 32) || (n =? 133) || (n =? 160).

Fixpoint ltrim (blank : ascii -> bool) (s : string) : string :=
  match s with
  | EmptyString => EmptyString
  | String c r => if blank c then ltrim blank r else s
  end.

Fixpoint rtrim (blank : ascii -> bool) (s : string) : string :=
  match s with
  | EmptyString => EmptyString
  | String c r =>
      match rtrim blank r with
      | EmptyString => if blank c then EmptyString else String c EmptyString
      | r' => String c r'
      end
  end.

(** [int(s)] on text: [None] stands for [ValueError]. *)
Definition int (s : string) : option Z :=
  let t := rtrim is_int_space (ltrim is_int_space s) in
  let '(neg, body) :=
    match t with
    | String "-"%char r => (true, r)
    | String "+"%char r => (false, r)
    | _ => (false, t)
    end in
  if int_max_str_digits <? count_digits body then None
  else match digits body 0 false with
       | Some n => Some (if neg then - n else n)
       | None => None
       end.

End PyStr.

(** ** Requests, responses and their header collections *)

Definition header : Type := string * string.

(** [Headers.get(key)]: the lookup lower-cases the key and returns the
    value of the first raw entry whose name equals it. *)
Definition headers_get (key : string) (hs : list header) : option string :=
  match List.find (fun h => String.eqb (fst h) (PyStr.lower key)) hs with
  | Some h => Some (snd h)
  | None => None
  end.

Fixpoint remove_key (k : string) (hs : list header) : list header :=
  match hs with
  | [] => []
  | h :: r => if String.eqb (fst h) k then remove_key k r else h :: remove_key k r
  end.

(** Assignment on an already lower-cased name: the first entry of that
    name is replaced in place, later ones are deleted, and the entry is
    appended when there is none. *)
Fixpoint set_raw (k v : string) (hs : list header) : list header :=
  match hs with
  | [] => [(k, v)]
  | h :: r => if String.eqb (fst h) k then (k, v) :: remove_key k r
              else h :: set_raw k v r
  end.

(** [headers[key] = value] on a [MutableHeaders]. *)
Definition headers_set (key value : string) (hs : list header) : list header :=
  set_raw (PyStr.lower key) value hs.

Record Request := {
  req_method : string;
  req_url : string;            (* str(request.url) *)
  req_path : string;           (* request.url.path *)
  req_headers : list header;   (* request.headers, raw order *)
  req_client : option string   (* request.client.host, when there is a peer *)
}.

Inductive json := JStr (s : string) | JInt (n : Z).

Inductive body :=
| BJson (content : list (string * json))
| BRaw (data : string).

Record Response := {
  status_code : Z;
  resp_headers : list header;
  resp_body : body
}.

Module Json.

Definition decimal (n : Z) : string := NilZero.string_of_int (Z.to_int n).

Definition dquote : ascii := ascii_of_nat 34.
Definition backslash : ascii := ascii_of_nat 92.

(** Quotes and backslashes are escaped; the texts the middleware sends
    hold no control or non-ASCII character. *)
Fixpoint escape (s : string) : string :=
  match s with
  | EmptyString => EmptyString
  | String c r =>
      if Ascii.eqb c dquote || Ascii.eqb c backslash
      then String backslash (String c (escape r))
      else String c (escape r)
  end.

Definition quote (s : string) : string :=
  String dquote (escape s) +:+ String dquote EmptyString.

Definition value (j : json) : string :=
  match j with
  | JStr s => quote s
  | JInt n => decimal n
  end.

Fixpoint members (kv : list (string * json)) : string :=
  match kv with
  | [] => EmptyString
  | [(k, v)] => quote k +:+ ":" +:+ value v
  | (k, v) :: r => quote k +:+ ":" +:+ value v +:+ "," +:+ members r
  end.

(** [json.dumps(content, separators=(",", ":"))] *)
Definition dumps (kv : list (string * json)) : string := "{" +:+ members kv +:+ "}".

End Json.

(** [JSONResponse(status_code=..., content=...)]: the rendered body with
    the two headers the response class sets by itself. *)
Definition JSONResponse (status : Z) (content : list (string * json)) : Response :=
  {| status_code := status;
     resp_headers :=
       [("content-length", Json.decimal (Z.of_nat (String.length (Json.dumps content))));
        ("content-type", "application/json")];
     resp_body := BJson content |}.

Definition HTTP_400_BAD_REQUEST : Z := 400.
Definition HTTP_429_TOO_MANY_REQUESTS : Z := 429.
Definition HTTP_500_INTERNAL_SERVER_ERROR : Z := 500.

(** ** The counter store

    The store is external; the middleware only sees the three client
    calls [get], [setex] and [incr], each of which may raise. *)

Inductive exn :=
| ConnectionError
| ResponseError
| ValueError
| AttributeError
| HandlerError (msg : string).

Inductive outcome (A : Type) :=
| Ret (a : A)
| Raise (e : exn).
Arguments Ret {A} a.
Arguments Raise {A} e.

Definition raised {A} (o : outcome A) : bool :=
  match o with Ret _ => false | Raise _ => true end.

(** What [_log_request] collects; times are in milliseconds. *)
Record AuditRecord := {
  log_timestamp : Z;
  log_method : string;
  log_path : string;
  log_client_ip : string;
  log_user_agent : string;
  log_status_code : Z;
  log_duration : Z;
  log_content_length : string
}.

(** A stored value is text: [VInt n] is the decimal text of [n], [VLog r]
    the text of a serialised audit record, which is no integer. *)
Inductive rvalue :=
| VInt (n : Z)
| VLog (r : AuditRecord).

Class CounterStore (S : Type) := {
  store_get : string -> S -> outcome (option rvalue) * S;
  store_setex : string -> Z -> rvalue -> S -> outcome unit * S;
  store_incr : string -> S -> outcome Z * S
}.

Inductive op :=
| OpGet
| OpSetex (ttl : Z) (v : rvalue)
| OpIncr.

(** One call on the store client, with whether it raised. *)
Record call := { c_op : op; c_key : string; c_failed : bool }.

(** *** A store that answers: keys with a value and a time to live *)

Abbreviation entry := (rvalue * option Z)%type.

Definition int64_max : Z := 2 ^ 63 - 1.
Definition int64_min : Z := - 2 ^ 63.

Definition mem_get (k : string) (m : gmap string entry)
  : outcome (option rvalue) * gmap string entry :=
  (Ret (match m !! k with Some e => Some (fst e) | None => None end), m).

Definition mem_setex (k : string) (ttl : Z) (v : rvalue) (m : gmap string entry)
  : outcome unit * gmap string entry :=
  if ttl <=? 0 then (Raise ResponseError, m)
  else (Ret tt, <[k := (v, Some ttl)]> m).

Definition mem_incr (k : string) (m : gmap string entry)
  : outcome Z * gmap string entry :=
  match m !! k with
  | None => (Ret 1, <[k := (VInt 1, None)]> m)
  | Some (VInt n, t) =>
      if (int64_min <=? n) && (n <? int64_max)
      then (Ret (n + 1), <[k := (VInt (n + 1), t)]> m)
      else (Raise ResponseError, m)
  | Some (VLog _, _) => (Raise ResponseError, m)
  end.

#[export] Instance redis_mem : CounterStore (gmap string entry) :=
  {| store_get := mem_get; store_setex := mem_setex; store_incr := mem_incr |}.

(** *** A store that cannot be reached *)

Inductive unreachable := Unreachable.

#[export] Instance redis_down : CounterStore unreachable :=
  {| store_get := fun _ s => (Raise ConnectionError, s);
     store_setex := fun _ _ _ s => (Raise ConnectionError, s);
     store_incr := fun _ s => (Raise ConnectionError, s) |}.

(** *** A store with transient faults: every call takes the next flag of
    the schedule and fails when it is set *)

Record flaky := { faults : list bool; kept : gmap string entry }.

Definition flaky_call {A} (f : gmap string entry -> outcome A * gmap string entry)
  (s : flaky) : outcome A * flaky :=
  match faults s with
  | true :: r => (Raise ConnectionError, {| faults := r; kept := kept s |})
  | false :: r => let '(o, m) := f (kept s) in (o, {| faults := r; kept := m |})
  | [] => let '(o, m) := f (kept s) in (o, {| faults := []; kept := m |})
  end.

#[export] Instance redis_flaky : CounterStore flaky :=
  {| store_get := fun k => flaky_call (mem_get k);
     store_setex := fun k ttl v => flaky_call (mem_setex k ttl v);
     store_incr := fun k => flaky_call (mem_incr k) |}.

(** ** Effects of the middleware

    A computation runs on [self.redis_client] (absent or a store) and
    yields a result or an exception, the client afterwards, and the store
    calls it made, oldest first. *)

Section Middleware.

Context {S : Type} `{CounterStore S}.

Definition M (A : Type) : Type := option S -> outcome A * option S * list call.

Definition ret {A} (a : A) : M A := fun c => (Ret a, c, []).

Definition bind {A B} (m : M A) (f : A -> M B) : M B :=
  fun c =>
    match m c with
    | (Ret a, c', t) => let '(r, c'', t') := f a c' in (r, c'', (t ++ t')%list)
    | (Raise e, c', t) => (Raise e, c', t)
    end.

(** [try: m  except Exception as e: h e] *)
Definition try_except {A} (m : M A) (h : exn -> M A) : M A :=
  fun c =>
    match m c with
    | (Ret a, c', t) => (Ret a, c', t)
    | (Raise e, c', t) => let '(r, c'', t') := h e c' in (r, c'', (t ++ t')%list)
    end.

Definition lift {A} (o : outcome A) : M A := fun c => (o, c, []).

(** Truth value of [self.redis_client]. *)
Definition has_client : M bool :=
  fun c => (Ret (match c with Some _ => true | None => false end), c, []).

Definition on_client {A} (o : op) (k : string) (f : S -> outcome A * S) : M A :=
  fun c =>
    match c with
    | None => (Raise AttributeError, None, [])
    | Some s =>
        let '(r, s') := f s in
        (r, Some s', [{| c_op := o; c_key := k; c_failed := raised r |}])
    end.

Definition redis_get (k : string) : M (option rvalue) :=
  on_client OpGet k (store_get k).

Definition redis_setex (k : string) (ttl : Z) (v : rvalue) : M unit :=
  on_client (OpSetex ttl v) k (store_setex k ttl v).

Definition redis_incr (k : string) : M Z :=
  on_client OpIncr k (store_incr k).

End Middleware.

Declare Scope mw_scope.
Delimit Scope mw_scope with mw.
Notation "x <- m ;; k" := (bind m (fun x => k))
  (at level 100, m at next level, right associativity) : mw_scope.
Notation "m ;; k" := (bind m (fun _ => k))
  (at level 100, right associativity) : mw_scope.

(** ** SecurityMiddleware *)

Inductive LimitClass := Default | Auth | Api.

Record Limit := { requests : Z; window : Z }.

(** [self.rate_limits] *)
Definition rate_limits (t : LimitClass) : Limit :=
  match t with
  | Default => {| requests := 100; window := 60 |}
  | Auth => {| requests := 5; window := 60 |}
  | Api => {| requests := 1000; window := 3600 |}
  end.

Definition limit_name (t : LimitClass) : string :=
  match t with
  | Default => "default"
  | Auth => "auth"
  | Api => "api"
  end.

(** The branch of [_check_rate_limit] that picks the limit type. *)
Definition limit_type (endpoint : string) : LimitClass :=
  if PyStr.contains "/auth" endpoint then Auth
  else if PyStr.contains "/api" endpoint then Api
  else Default.

Definition _get_client_ip (request : Request) : string :=
  let peer :=
    match req_client request with
    | Some host => host
    | None => "unknown"
    end in
  let real :=
    match headers_get "X-Real-IP" (req_headers request) with
    | Some real_ip => if PyStr.truthy real_ip then real_ip else peer
    | None => peer
    end in
  match headers_get "X-Forwarded-For" (req_headers request) with
  | Some forwarded_for =>
      if PyStr.truthy forwarded_for
      then PyStr.strip (PyStr.split_head ","%char forwarded_for)
      else real
  | None => real
  end.

Definition rate_key (client_ip : string) (t : LimitClass) : string :=
  "rate_limit:" +:+ client_ip +:+ ":" +:+ limit_name t.

(** [int(current)] on a stored value. *)
Definition int_of_value (v : rvalue) : outcome Z :=
  match v with
  | VInt n => Ret n
  | VLog _ => Raise ValueError
  end.

Definition max_content_length : Z := 10 * 1024 * 1024.

Definition suspicious_patterns : list string :=
  ["<script"; "javascript:"; "data:text/html";
   "eval("; "document.cookie"; "window.location"].

(** [any(pattern in text for pattern in suspicious_patterns)] *)
Definition suspicious (text : string) : bool :=
  existsb (fun pattern => PyStr.contains pattern text) suspicious_patterns.

Definition header_str (h : header) : string :=
  PyStr.lower (fst h +:+ ":" +:+ snd h).

(** The two scans of [_validate_request] after the length check. *)
Definition scan_patterns (request : Request) : bool :=
  if suspicious (PyStr.lower (req_url request)) then false
  else if existsb (fun h => suspicious (header_str h)) (req_headers request) then false
  else true.

(** The body of the [try] of [_validate_request]. *)
Definition validate_body (request : Request) : outcome bool :=
  match headers_get "content-length" (req_headers request) with
  | Some content_length =>
      if PyStr.truthy content_length then
        match PyStr.int content_length with
        | Some n => if max_content_length <? n then Ret false
                    else Ret (scan_patterns request)
        | None => Raise ValueError
        end
      else Ret (scan_patterns request)
  | None => Ret (scan_patterns request)
  end.

Definition _validate_request (request : Request) : bool :=
  match validate_body request with
  | Ret b => b
  | Raise _ => true
  end.

Definition security_headers : list header :=
  [("X-Content-Type-Options", "nosniff");
   ("X-Frame-Options", "DENY");
   ("X-XSS-Protection", "1; mode=block");
   ("Strict-Transport-Security", "max-age=31536000; includeSubDomains");
   ("Referrer-Policy", "strict-origin-when-cross-origin");
   ("Content-Security-Policy",
    "default-src 'self'; script-src 'self' 'unsafe-inline'; style-src 'self' 'unsafe-inline'; img-src 'self' data: https:; font-src 'self'; connect-src 'self' https://*.supabase.co wss://*.supabase.co");
   ("Permissions-Policy",
    "geolocation=(), microphone=(), camera=(), payment=(), usb=(), magnetometer=(), gyroscope=()");
   ("Cache-Control", "no-store, no-cache, must-revalidate, proxy-revalidate");
   ("Pragma", "no-cache");
   ("Expires", "0")].

Definition set_all (kvs hs : list header) : list header :=
  fold_left (fun acc kv => headers_set (fst kv) (snd kv) acc) kvs hs.

Definition _add_security_headers (response : Response) : Response :=
  {| status_code := status_code response;
     resp_headers := set_all security_headers (resp_headers response);
     resp_body := resp_body response |}.

(** The clock readings of one request, in milliseconds. *)
Record Clock := {
  t_start : Z;     (* time.time() on entry *)
  t_done : Z;      (* time.time() after the handler *)
  t_stamp : Z;     (* datetime.utcnow() *)
  t_key : Z        (* time.time() for the log key *)
}.

Definition header_or (key default : string) (hs : list header) : string :=
  match headers_get key hs with
  | Some v => v
  | None => default
  end.

Definition log_key (seconds : Z) : string :=
  "request_log:" +:+ Json.decimal seconds.

Section Pipeline.

Context {S : Type} `{CounterStore S}.

Local Open Scope mw_scope.

(** The body of the [try] of [_check_rate_limit]. *)
Definition rate_limit_body (request : Request) : M bool :=
  let client_ip := _get_client_ip request in
  let endpoint := req_path request in
  let t := limit_type endpoint in
  let limits := rate_limits t in
  let key := rate_key client_ip t in
  current <- redis_get key ;;
  match current with
  | None => redis_setex key (window limits) (VInt 1) ;; ret true
  | Some v =>
      current_count <- lift (int_of_value v) ;;
      if requests limits <=? current_count then ret false
      else redis_incr key ;; ret true
  end.

Definition _check_rate_limit (request : Request) : M bool :=
  configured <- has_client ;;
  if negb configured then ret true
  else try_except (rate_limit_body request) (fun _ => ret true).

Definition _log_request (request : Request) (response : Response)
  (duration : Z) (clk : Clock) : M unit :=
  try_except
    (let log_data :=
       {| log_timestamp := t_stamp clk;
          log_method := req_method request;
          log_path := req_path request;
          log_client_ip := _get_client_ip request;
          log_user_agent := header_or "User-Agent" EmptyString (req_headers request);
          log_status_code := status_code response;
          log_duration := duration;
          log_content_length := header_or "content-length" "0" (resp_headers response) |} in
     configured <- has_client ;;
     if configured
     then redis_setex (log_key (t_key clk / 1000)) 3600 (VLog log_data)
     else ret tt)
    (fun _ => ret tt).

Definition dispatch (request : Request) (call_next : Request -> outcome Response)
  (clk : Clock) : M Response :=
  let start_time := t_start clk in
  try_except
    (admitted <- _check_rate_limit request ;;
     if negb admitted then
       ret (JSONResponse HTTP_429_TOO_MANY_REQUESTS
              [("error", JStr "Rate limit exceeded"); ("retry_after", JInt 60)])
     else
       if negb (_validate_request request) then
         ret (JSONResponse HTTP_400_BAD_REQUEST
                [("error", JStr "Invalid request format")])
       else
         response <- lift (call_next request) ;;
         let response := _add_security_headers response in
         _log_request request response (t_done clk - start_time) clk ;;
         ret response)
    (fun _ =>
       ret (JSONResponse HTTP_500_INTERNAL_SERVER_ERROR
              [("error", JStr "Internal server error")])).

End Pipeline.

(** ** The rest of the module *)

Module PyText.

Fixpoint take (n : nat) (s : string) : string :=
  match n, s with
  | Datatypes.S k, String c r => String c (take k r)
  | _, _ => EmptyString
  end.

(** [s[:n]]: a negative [n] counts from the end. *)
Definition slice_to (n : Z) (s : string) : string :=
  if 0 <=? n then take (Z.to_nat n) s
  else take (Z.to_nat (Z.of_nat (String.length s) + n)) s.

(** The scan of [s.replace(old, empty)] for a non-empty [old]: the
    occurrences of [old] are dropped from left to right without overlap;
    [skip] counts the characters of the current occurrence still to drop. *)
Fixpoint delete_from (old : string) (skip : nat) (s : string) : string :=
  match s with
  | EmptyString => EmptyString
  | String c r =>
      match skip with
      | Datatypes.S k => delete_from old k r
      | O => if String.prefix old s
             then delete_from old (String.length old - 1)%nat r
             else String c (delete_from old O r)
      end
  end.

(** [s.replace(old, empty)]; with an empty [old] there is nothing to drop. *)
Definition delete_all (old s : string) : string :=
  match old with
  | EmptyString => s
  | _ => delete_from old O s
  end.

End PyText.

(** An argument as the interpreter passes it: text or something else. *)
Inductive pyobj :=
| OStr (s : string)
| ONone
| OInt (n : Z).

Definition dangerous_chars : list string :=
  ["<"; ">"; String Json.dquote EmptyString; "'"; "&"; "script"; "javascript"].

(** [InputSanitizer.sanitize_string] *)
Definition sanitize_string (input_str : pyobj) (max_length : Z) : string :=
  match input_str with
  | OStr s =>
      let s := if max_length <? Z.of_nat (String.length s)
               then PyText.slice_to max_length s else s in
      let s := fold_left (fun acc char => PyText.delete_all char acc) dangerous_chars s in
      PyStr.strip s
  | _ => EmptyString
  end.

Definition api_key_words : list string :=
  ["test"; "demo"; "example"; "placeholder"].

(** [InputSanitizer.validate_api_key] *)
Definition validate_api_key (api_key : string) : bool :=
  if negb (PyStr.truthy api_key) || (Z.of_nat (String.length api_key) <? 10)
  then false
  else negb (existsb (fun pattern => PyStr.contains pattern (PyStr.lower api_key))
               api_key_words).

(** *** Regular expressions, as far as [validate_email] needs them *)

Module Re.

Inductive re :=
| Void
| Eps
| Cls (p : ascii -> bool)
| Cat (a b : re)
| Alt (a b : re)
| Star (a : re).

(** [a+] and [a{2,}] *)
Definition plus (a : re) : re := Cat a (Star a).
Definition two_or_more (a : re) : re := Cat a (Cat a (Star a)).

Fixpoint nullable (r : re) : bool :=
  match r with
  | Void => false
  | Eps => true
  | Cls _ => false
  | Cat a b => nullable a && nullable b
  | Alt a b => nullable a || nullable b
  | Star _ => true
  end.

(** What is left of [r] once [c] has been read. *)
Fixpoint derive (c : ascii) (r : re) : re :=
  match r with
  | Void => Void
  | Eps => Void
  | Cls p => if p c then Eps else Void
  | Cat a b => if nullable a then Alt (Cat (derive c a) b) (derive c b)
               else Cat (derive c a) b
  | Alt a b => Alt (derive c a) (derive c b)
  | Star a => Cat (derive c a) (Star a)
  end.

(** [r] matches all of [s]. *)
Fixpoint accepts (r : re) (s : string) : bool :=
  match s with
  | EmptyString => nullable r
  | String c t => accepts (derive c r) t
  end.

Definition newline : ascii := ascii_of_nat 10.

(** [s] without its last character when that is a line feed. *)
Fixpoint chop_newline (s : string) : option string :=
  match s with
  | EmptyString => None
  | String c EmptyString => if Ascii.eqb c newline then Some EmptyString else None
  | String c t =>
      match chop_newline t with
      | Some t' => Some (String c t')
      | None => None
      end
  end.

(** [re.match("^r$", s)]: the dollar sign holds at the end of the text and
    also just before a line feed that ends it. *)
Definition match_anchored (r : re) (s : string) : bool :=
  accepts r s ||
  match chop_newline s with
  | Some t => accepts r t
  | None => false
  end.

End Re.

Definition is_alpha (c : ascii) : bool :=
  let n := PyStr.code c in
  ((65 <=? n) && (n <=? 90)) || ((97 <=? n) && (n <=? 122)).

Definition is_alnum (c : ascii) : bool := is_alpha c || PyStr.is_digit c.

(** [[a-zA-Z0-9._%+-]] *)
Definition local_char (c : ascii) : bool :=
  is_alnum c || Ascii.eqb c "."%char || Ascii.eqb c "_"%char
  || Ascii.eqb c "%"%char || Ascii.eqb c "+"%char || Ascii.eqb c "-"%char.

(** [[a-zA-Z0-9.-]] *)
Definition domain_char (c : ascii) : bool :=
  is_alnum c || Ascii.eqb c "."%char || Ascii.eqb c "-"%char.

Definition is_at (c : ascii) : bool := Ascii.eqb c "@"%char.
Definition is_dot (c : ascii) : bool := Ascii.eqb c "."%char.

(** The pattern of [validate_email] between its two anchors. *)
Definition email_pattern : Re.re :=
  Re.Cat (Re.plus (Re.Cls local_char))
    (Re.Cat (Re.Cls is_at)
       (Re.Cat (Re.plus (Re.Cls domain_char))
          (Re.Cat (Re.Cls is_dot) (Re.two_or_more (Re.Cls is_alpha))))).

(** [InputSanitizer.validate_email] *)
Definition validate_email (email : string) : bool :=
  Re.match_anchored email_pattern email.

(** *** Installing the middleware *)

Inductive middleware (S : Type) :=
| SecurityMiddleware (redis_client : option S)
| OtherMiddleware (name : string).
Arguments SecurityMiddleware {S} redis_client.
Arguments OtherMiddleware {S} name.

Section Setup.

Context {S : Type}.

(** The two calls on the client library: [redis.from_url] and [ping]. *)
Variable from_url : string -> outcome S.
Variable ping : S -> outcome unit * S.

(** The client [setup_security_middleware] ends up with. *)
Definition connect (redis_url : option string) : option S :=
  match redis_url with
  | Some url =>
      if PyStr.truthy url then
        match from_url url with
        | Ret client =>
            match ping client with
            | (Ret _, client') => Some client'
            | (Raise _, _) => None
            end
        | Raise _ => None
        end
      else None
  | None => None
  end.

(** [app.add_middleware] puts the new layer in front of the others. *)
Definition setup_security_middleware (app : list (middleware S))
  (redis_url : option string) : list (middleware S) :=
  SecurityMiddleware (connect redis_url) :: app.

(** Backend/main.py: the middleware is installed when its module could
    be imported, with the URL read from the environment. *)
Definition install (SECURITY_AVAILABLE : bool) (environ : gmap string string)
  (app : list (middleware S)) : list (middleware S) :=
  if SECURITY_AVAILABLE
  then setup_security_middleware app (environ !! "REDIS_URL")
  else app.

End Setup.

(** *** Backend/main.py: the origins handed to the CORS layer *)

(** [s.split(sep)] for a one-character separator. *)
Fixpoint split (sep : ascii) (s : string) : list string :=
  match s with
  | EmptyString => [EmptyString]
  | String c r =>
      if Ascii.eqb c sep then EmptyString :: split sep r
      else match split sep r with
           | piece :: rest => String c piece :: rest
           | [] => [String c EmptyString]
           end
  end.

(** [os.getenv(name, default)] *)
Definition getenv (environ : gmap string string) (name default : string) : string :=
  match environ !! name with
  | Some v => v
  | None => default
  end.

Definition allowed_origins (environ : gmap string string) : list string :=
  let allowed_origins :=
    split ","%char
      (getenv environ "ALLOWED_ORIGINS" "http://localhost:3000,https://localhost:3000") in
  match environ !! "ENVIRONMENT" with
  | Some "production" =>
      map PyStr.strip
        (List.filter (fun origin => PyStr.truthy (PyStr.strip origin)) allowed_origins)
  | _ => ["http://localhost:3000"; "https://localhost:3000"; "http://127.0.0.1:3000"]
  end.

(** ** Vocabulary of the properties *)

(** [p] occurs in [s]. *)
Definition Substring (p s : string) : Prop :=
  exists l r, s = l +:+ p +:+ r.

(** Every character of [s] is white space. *)
Fixpoint all_space (s : string) : bool :=
  match s with
  | EmptyString => true
  | String c r => PyStr.is_space c && all_space r
  end.

(** [s] starts, respectively ends, with white space. *)
Definition starts_space (s : string) : bool :=
  match s with
  | EmptyString => false
  | String c _ => PyStr.is_space c
  end.

Fixpoint ends_space (s : string) : bool :=
  match s with
  | EmptyString => false
  | String c EmptyString => PyStr.is_space c
  | String _ r => ends_space r
  end.

(** No raw entry of [hs] is named [k]. *)
Definition absent (k : string) (hs : list header) : Prop :=
  Forall (fun h => fst h <> k) hs.

(** [hs] holds exactly one entry named [k], and its value is [v]. *)
Inductive once (k v : string) : list header -> Prop :=
| once_here r : absent k r -> once k v ((k, v) :: r)
| once_later h r : fst h <> k -> once k v r -> once k v (h :: r).

Definition lower_key (kv : header) : string := PyStr.lower (fst kv).

(** The length header is missing, empty, or a text [int] reads as an
    integer. *)
Definition length_readable (request : Request) : bool :=
  match headers_get "content-length" (req_headers request) with
  | None => true
  | Some v => negb (PyStr.truthy v) ||
              match PyStr.int v with Some _ => true | None => false end
  end.

(** The length header holds a text [int] reads as an integer above the
    ceiling. *)
Definition length_over (request : Request) : bool :=
  match headers_get "content-length" (req_headers request) with
  | None => false
  | Some v => PyStr.truthy v &&
              match PyStr.int v with
              | Some n => max_content_length <? n
              | None => false
              end
  end.

(** The header is missing or holds the empty text. *)
Definition unset (key : string) (hs : list header) : Prop :=
  headers_get key hs = None \/ headers_get key hs = Some EmptyString.

Definition any_failed (t : list call) : Prop :=
  Exists (fun e => c_failed e = true) t.

(** [n] consecutive rate checks of the same request. *)
Fixpoint checks {S : Type} `{CounterStore S} (n : nat) (request : Request)
  (c : option S) : list bool * option S :=
  match n with
  | O => ([], c)
  | Datatypes.S n' =>
      match _check_rate_limit request c with
      | (Ret b, c', _) => let '(bs, c'') := checks n' request c' in (b :: bs, c'')
      | (Raise _, c', _) => ([], c')
      end
  end.

(** Limit class, limits and counter key of a request. *)
Definition class_of (request : Request) : LimitClass :=
  limit_type (req_path request).
Definition limits_of (request : Request) : Limit :=
  rate_limits (class_of request).
Definition key_of (request : Request) : string :=
  rate_key (_get_client_ip request) (class_of request).

(** The response a run of the pipeline hands back, if it hands one back. *)
Definition returned {S : Type}
  (r : outcome Response * option S * list call) : option Response :=
  match fst (fst r) with
  | Ret response => Some response
  | Raise _ => None
  end.

Definition rate_limit_reply : Response :=
  JSONResponse 429 [("error", JStr "Rate limit exceeded"); ("retry_after", JInt 60)].

Definition bad_request_reply : Response :=
  JSONResponse 400 [("error", JStr "Invalid request format")].

Definition internal_error_reply : Response :=
  JSONResponse 500 [("error", JStr "Internal server error")].

(** Store calls that went through. *)
Definition get_call (k : string) : call :=
  {| c_op := OpGet; c_key := k; c_failed := false |}.
Definition setex_call (k : string) (ttl : Z) (v : rvalue) : call :=
  {| c_op := OpSetex ttl v; c_key := k; c_failed := false |}.
Definition incr_call (k : string) : call :=
  {| c_op := OpIncr; c_key := k; c_failed := false |}.

(** ** Sample inputs *)

Module Sample.

Definition get (url path : string) (hs : list header) : Request :=
  {| req_method := "GET"; req_url := url; req_path := path;
     req_headers := hs; req_client := Some "10.0.0.9" |}.

Definition clock : Clock :=
  {| t_start := 1000; t_done := 1012; t_stamp := 1013; t_key := 1014 |}.

Definition handler (_ : Request) : outcome Response :=
  Ret {| status_code := 200;
         resp_headers := [("content-length", "2"); ("x-frame-options", "SAMEORIGIN")];
         resp_body := BRaw "ok" |}.

Definition broken_handler (_ : Request) : outcome Response :=
  Raise (HandlerError "boom").

Definition empty_store : option (gmap string entry) := Some ∅.

Definition plain := get "http://h/lessons" "/lessons" [].
Definition login := get "http://h/auth/login" "/auth/login" [].
Definition api_call := get "http://h/api/chat" "/api/chat" [].
Definition script := get "http://h/a<script" "/a<script" [].
Definition script_bad_length :=
  get "http://h/a<script" "/a<script" [("content-length", "abc")].
Definition huge := get "http://h/upload" "/upload" [("content-length", "10485761")].
Definition at_ceiling := get "http://h/upload" "/upload" [("content-length", "10485760")].
Definition empty_forwarded := get "http://h/lessons" "/lessons" [("x-forwarded-for", EmptyString)].
Definition forwarded :=
  get "http://h/lessons" "/lessons"
    [("x-forwarded-for", " 1.2.3.4 , 5.6.7.8"); ("x-real-ip", "9.9.9.9")].
Definition real_ip := get "http://h/lessons" "/lessons" [("x-real-ip", "9.9.9.9")].

Definition full (k : string) (n : Z) (ttl : Z) : option (gmap string entry) :=
  Some {[ k := (VInt n, Some ttl) ]}.

End Sample.

(** ** More vocabulary *)

(** [sep.join(pieces)] for a one-character separator. *)
Fixpoint join (sep : ascii) (pieces : list string) : string :=
  match pieces with
  | [] => EmptyString
  | [piece] => piece
  | piece :: rest => piece +:+ String sep (join sep rest)
  end.

(** The numeral of [n] nines. *)
Fixpoint nines (n : nat) : string :=
  match n with
  | O => EmptyString
  | Datatypes.S k => String "9"%char (nines k)
  end.

(** [a] is [b] with some characters left out. *)
Inductive subseq : string -> string -> Prop :=
| sub_nil : subseq EmptyString EmptyString
| sub_keep c a b : subseq a b -> subseq (String c a) (String c b)
| sub_drop c a b : subseq a b -> subseq a (String c b).

(** [c] is a character of [s]. *)
Fixpoint occurs (c : ascii) (s : string) : bool :=
  match s with
  | EmptyString => false
  | String x r => Ascii.eqb x c || occurs c r
  end.

(** Every character of [s] passes [p]. *)
Fixpoint all_in (p : ascii -> bool) (s : string) : bool :=
  match s with
  | EmptyString => true
  | String c r => p c && all_in p r
  end.

(** The language of a regular expression. *)
Inductive Lang : Re.re -> string -> Prop :=
| LEps : Lang Re.Eps EmptyString
| LCls p c : p c = true -> Lang (Re.Cls p) (String c EmptyString)
| LCat a b s1 s2 : Lang a s1 -> Lang b s2 -> Lang (Re.Cat a b) (s1 +:+ s2)
| LAltL a b s : Lang a s -> Lang (Re.Alt a b) s
| LAltR a b s : Lang b s -> Lang (Re.Alt a b) s
| LStar0 a : Lang (Re.Star a) EmptyString
| LStarS a s1 s2 : Lang a s1 -> Lang (Re.Star a) s2 -> Lang (Re.Star a) (s1 +:+ s2).

(** local@domain.tld, each part non-empty and of its own characters, the
    last one of two letters or more. *)
Definition email_shape (s : string) : Prop :=
  exists l d t,
    s = l +:+ "@" +:+ d +:+ "." +:+ t /\
    l <> EmptyString /\ all_in local_char l = true /\
    d <> EmptyString /\ all_in domain_char d = true /\
    (2 <= String.length t)%nat /\ all_in is_alpha t = true.

Definition line_feed : string := String Re.newline EmptyString.

(** The audit record [_log_request] builds. *)
Definition audit_record (request : Request) (response : Response)
  (duration : Z) (clk : Clock) : AuditRecord :=
  {| log_timestamp := t_stamp clk;
     log_method := req_method request;
     log_path := req_path request;
     log_client_ip := _get_client_ip request;
     log_user_agent := header_or "User-Agent" EmptyString (req_headers request);
     log_status_code := status_code response;
     log_duration := duration;
     log_content_length := header_or "content-length" "0" (resp_headers response) |}.

(** The raw entries of [hs] named [k], in order. *)
Definition entries_named (k : string) (hs : list header) : list header :=
  List.filter (fun h => String.eqb (fst h) k) hs.

(** * Properties *)

(** ** Text *)

#[local] Arguments String.append !s1 s2 : simpl nomatch.

Lemma append_assoc (a b c : string) : (a +:+ b) +:+ c = a +:+ (b +:+ c).
Proof. induction a as [|x a IH]; simpl; [reflexivity | now rewrite IH]. Qed.

Lemma prefix_split (p s : string) :
  String.prefix p s = true <-> exists r, s = p +:+ r.
Proof.
  revert p. induction s as [|b s IH]; intros [|a p]; simpl.
  - split; [exists EmptyString; reflexivity | reflexivity].
  - split; [discriminate | intros [r Hr]; discriminate].
  - split; [intros _; eexists; reflexivity | reflexivity].
  - destruct (ascii_dec a b) as [->|Hab].
    + rewrite IH. split; intros [r Hr]; exists r; congruence.
    + split; [discriminate | intros [r Hr]; congruence].
Qed.

Lemma contains_spec (p s : string) :
  PyStr.contains p s = true <-> Substring p s.
Proof.
  unfold Substring. induction s as [|b s IH]; cbn [PyStr.contains].
  - rewrite orb_false_r, prefix_split. split.
    + intros [r Hr]. exists EmptyString, r. exact Hr.
    + intros [[|x l] [r Hr]]; [exists r; exact Hr | discriminate].
  - rewrite orb_true_iff, prefix_split, IH. split.
    + intros [[r Hr] | (l & r & Hr)].
      * exists EmptyString, r. exact Hr.
      * exists (String b l), r. simpl. now rewrite Hr.
    + intros ([|x l] & r & Hr).
      * left. exists r. exact Hr.
      * right. exists l, r. simpl in Hr. congruence.
Qed.

Lemma contains_false (p s : string) :
  PyStr.contains p s = false <-> ~ Substring p s.
Proof.
  rewrite <- contains_spec. destruct (PyStr.contains p s); split; intros; congruence.
Qed.

Lemma suspicious_spec (text : string) :
  suspicious text = true <->
  exists pattern, In pattern suspicious_patterns /\ Substring pattern text.
Proof.
  unfold suspicious. rewrite existsb_exists.
  split; intros (p & Hin & Hp); exists p; (split; [exact Hin |]);
    now apply contains_spec.
Qed.

(** [split_head] stops at the first separator and keeps what is before it. *)
Lemma split_head_spec (sep : ascii) (s : string) :
  (s = PyStr.split_head sep s \/
   exists r, s = PyStr.split_head sep s +:+ String sep r) /\
  PyStr.contains (String sep EmptyString) (PyStr.split_head sep s) = false.
Proof.
  induction s as [|c s [IHs IHc]]; simpl.
  - split; [left; reflexivity | reflexivity].
  - destruct (Ascii.eqb_spec c sep) as [->|Hne]; simpl.
    + split; [right; exists s; reflexivity | reflexivity].
    + split.
      * destruct IHs as [E | [r E]]; [left | right; exists r]; congruence.
      * destruct (ascii_dec sep c) as [E|_]; [congruence |]. exact IHc.
Qed.

Lemma lstrip_spec (s : string) :
  (exists l, s = l +:+ PyStr.lstrip s /\ all_space l = true) /\
  starts_space (PyStr.lstrip s) = false.
Proof.
  induction s as [|c s [[l [E Hl]] Hs]]; cbn [PyStr.lstrip].
  - split; [exists EmptyString; split; reflexivity | reflexivity].
  - destruct (PyStr.is_space c) eqn:Hc.
    + split; [| exact Hs]. exists (String c l). simpl. rewrite Hc, Hl.
      split; [congruence | reflexivity].
    + split; [exists EmptyString; split; reflexivity | exact Hc].
Qed.

Lemma rstrip_spec (s : string) :
  (exists r, s = PyStr.rstrip s +:+ r /\ all_space r = true) /\
  ends_space (PyStr.rstrip s) = false /\
  (starts_space s = false -> starts_space (PyStr.rstrip s) = false).
Proof.
  induction s as [|c s [[r [E Hr]] [He _]]]; cbn [PyStr.rstrip].
  - repeat split. exists EmptyString. split; reflexivity.
  - destruct (PyStr.rstrip s) as [|c' s'] eqn:Hs.
    + destruct (PyStr.is_space c) eqn:Hc.
      * repeat split. exists (String c r). simpl. rewrite Hc, Hr.
        split; [simpl in E; congruence | reflexivity].
      * split; [| split; simpl; congruence].
        exists r. split; [simpl in *; congruence | exact Hr].
    + split; [| split; [exact He | intros Hc; exact Hc]].
      exists r. split; [simpl in *; congruence | exact Hr].
Qed.

(** [strip] removes white space at both ends and nothing else. *)
Lemma strip_spec (s : string) :
  (exists l r, s = l +:+ PyStr.strip s +:+ r /\
               all_space l = true /\ all_space r = true) /\
  starts_space (PyStr.strip s) = false /\
  ends_space (PyStr.strip s) = false.
Proof.
  unfold PyStr.strip.
  destruct (lstrip_spec s) as [[l [El Hl]] Hs].
  destruct (rstrip_spec (PyStr.lstrip s)) as [[r [Er Hr]] [He Hk]].
  split; [| split; [now apply Hk | exact He]].
  exists l, r. split; [| split; assumption]. now rewrite <- Er.
Qed.

Example lower_mixed : PyStr.lower "/A<ScRiPt>" = "/a<script>".
Proof. reflexivity. Qed.

Example contains_inner : PyStr.contains "/auth" "/v1/auth/login" = true.
Proof. reflexivity. Qed.

Example contains_absent : PyStr.contains "/auth" "/v1/aut/h" = false.
Proof. reflexivity. Qed.

Example strip_both : PyStr.strip "  10.0.0.1 " = "10.0.0.1".
Proof. reflexivity. Qed.

Example int_plain : PyStr.int " 1_000 " = Some 1000.
Proof. reflexivity. Qed.

Example int_bad : PyStr.int "abc" = None.
Proof. reflexivity. Qed.

Example int_empty : PyStr.int EmptyString = None.
Proof. reflexivity. Qed.

Example int_signed : PyStr.int "-12" = Some (-12).
Proof. reflexivity. Qed.

Example int_spaced_sign : PyStr.int "+ 1" = None.
Proof. reflexivity. Qed.

(** ** Limit classes *)

(** C6: the limit class is a function of the path alone: a path in which
    "/auth" occurs is of class auth (also when "/api" occurs in it too), a
    path with "/api" and without "/auth" is of class api, and every other
    path is of class default. *)
Theorem limit_class_by_path (path : string) :
  (Substring "/auth" path -> limit_type path = Auth) /\
  (~ Substring "/auth" path -> Substring "/api" path -> limit_type path = Api) /\
  (~ Substring "/auth" path -> ~ Substring "/api" path -> limit_type path = Default).
Proof.
  unfold limit_type. repeat split.
  - intros Ha. apply contains_spec in Ha. now rewrite Ha.
  - intros Ha Hp. apply contains_false in Ha. apply contains_spec in Hp.
    now rewrite Ha, Hp.
  - intros Ha Hp. apply contains_false in Ha. apply contains_false in Hp.
    now rewrite Ha, Hp.
Qed.

Lemma limit_class_by_path_witness :
  Substring "/auth" "/api/auth/token" /\ limit_type "/api/auth/token" = Auth.
Proof.
  assert (Hs : Substring "/auth" "/api/auth/token") by (exists "/api", "/token"; reflexivity).
  split; [exact Hs |].
  exact (proj1 (limit_class_by_path "/api/auth/token") Hs).
Defined.

Example limit_class_both : limit_type "/api/auth/token" = Auth.
Proof. reflexivity. Qed.

Example limit_class_api : limit_type "/v2/api/chat" = Api.
Proof. reflexivity. Qed.

Example limit_class_other : limit_type "/lessons/Auth" = Default.
Proof. reflexivity. Qed.

(** ** Client identity *)

(** C10, amended: the identity is the trimmed first comma-separated entry
    of X-Forwarded-For when that header holds a non-empty value; otherwise
    the whole X-Real-IP value when that one is non-empty; otherwise the
    peer address when there is a peer; otherwise "unknown". *)
Theorem client_ip_resolution (request : Request) :
  let hs := req_headers request in
  (forall v, headers_get "X-Forwarded-For" hs = Some v -> v <> EmptyString ->
     _get_client_ip request = PyStr.strip (PyStr.split_head ","%char v)) /\
  (forall v, unset "X-Forwarded-For" hs ->
     headers_get "X-Real-IP" hs = Some v -> v <> EmptyString ->
     _get_client_ip request = v) /\
  (forall host, unset "X-Forwarded-For" hs -> unset "X-Real-IP" hs ->
     req_client request = Some host -> _get_client_ip request = host) /\
  (unset "X-Forwarded-For" hs -> unset "X-Real-IP" hs ->
     req_client request = None -> _get_client_ip request = "unknown").
Proof.
  unfold _get_client_ip, unset. cbv zeta. repeat split.
  - intros v -> Hv. destruct v; [congruence | reflexivity].
  - intros v [-> | ->] -> Hv; destruct v; congruence || reflexivity.
  - intros host [-> | ->] [-> | ->] ->; reflexivity.
  - intros [-> | ->] [-> | ->] ->; reflexivity.
Qed.

Lemma client_ip_resolution_witness :
  headers_get "X-Forwarded-For" (req_headers Sample.forwarded) = Some " 1.2.3.4 , 5.6.7.8" /\
  _get_client_ip Sample.forwarded = "1.2.3.4".
Proof.
  split; [reflexivity |].
  apply (proj1 (client_ip_resolution Sample.forwarded) " 1.2.3.4 , 5.6.7.8");
    [reflexivity | discriminate].
Defined.

(** C10, as stated, fails: an X-Forwarded-For header that is present with
    an empty value is passed over, and the peer address is used. *)
Lemma client_ip_empty_forwarded :
  headers_get "X-Forwarded-For" (req_headers Sample.empty_forwarded) = Some EmptyString /\
  _get_client_ip Sample.empty_forwarded
    <> PyStr.strip (PyStr.split_head ","%char EmptyString) /\
  _get_client_ip Sample.empty_forwarded = "10.0.0.9".
Proof. repeat split. discriminate. Qed.

Example client_ip_forwarded : _get_client_ip Sample.forwarded = "1.2.3.4".
Proof. reflexivity. Qed.

Example client_ip_real : _get_client_ip Sample.real_ip = "9.9.9.9".
Proof. reflexivity. Qed.

Example client_ip_peer : _get_client_ip Sample.plain = "10.0.0.9".
Proof. reflexivity. Qed.

(** ** Request validation *)

Lemma scan_patterns_false (request : Request) :
  scan_patterns request = false <->
  suspicious (PyStr.lower (req_url request)) = true \/
  Exists (fun h => suspicious (header_str h) = true) (req_headers request).
Proof.
  unfold scan_patterns. rewrite List.Exists_exists, <- existsb_exists.
  destruct (suspicious _); [intuition |].
  destruct (existsb _ _); intuition congruence.
Qed.

Lemma scan_patterns_true (request : Request) :
  scan_patterns request = true <->
  suspicious (PyStr.lower (req_url request)) = false /\
  Forall (fun h => suspicious (header_str h) = false) (req_headers request).
Proof.
  split.
  - intros Hs. split.
    + destruct (suspicious _) eqn:E; [| reflexivity].
      assert (scan_patterns request = false) by (apply scan_patterns_false; now left).
      congruence.
    + apply List.Forall_forall. intros h Hh.
      destruct (suspicious (header_str h)) eqn:E; [| reflexivity].
      assert (scan_patterns request = false).
      { apply scan_patterns_false. right. apply List.Exists_exists. eauto. }
      congruence.
  - intros [Hu Hh]. destruct (scan_patterns request) eqn:E; [reflexivity |].
    apply scan_patterns_false in E as [E | E]; [congruence |].
    apply List.Exists_exists in E as (h & Hin & Hs).
    rewrite List.Forall_forall in Hh. specialize (Hh h Hin). congruence.
Qed.

Lemma int_truthy (v : string) (n : Z) : PyStr.int v = Some n -> PyStr.truthy v = true.
Proof. destruct v; [discriminate | reflexivity]. Qed.

(** C8, amended: a request whose content-length is a text that [int]
    reads as an integer (blanks around an optional sign and digits, at
    most 4300 digits) above 10 * 1024 * 1024 is rejected; with a
    content-length read as an integer at or below that ceiling, or with
    no such header, the verdict is that of the pattern scans alone; and a
    non-empty content-length that [int] cannot read is admitted. *)
Theorem content_length_ceiling (request : Request) :
  let declared := headers_get "content-length" (req_headers request) in
  (forall v n, declared = Some v -> PyStr.int v = Some n ->
     10 * 1024 * 1024 < n -> _validate_request request = false) /\
  (forall v n, declared = Some v -> PyStr.int v = Some n ->
     n <= 10 * 1024 * 1024 -> _validate_request request = scan_patterns request) /\
  (declared = None -> _validate_request request = scan_patterns request) /\
  (forall v, declared = Some v -> v <> EmptyString -> PyStr.int v = None ->
     _validate_request request = true).
Proof.
  unfold _validate_request, validate_body. cbv zeta. repeat split.
  - intros v n -> Hn Hlt. rewrite (int_truthy v n Hn), Hn.
    replace (max_content_length <? n) with true; [reflexivity |].
    symmetry. apply Z.ltb_lt. unfold max_content_length. lia.
  - intros v n -> Hn Hle. rewrite (int_truthy v n Hn), Hn.
    replace (max_content_length <? n) with false; [reflexivity |].
    symmetry. apply Z.ltb_ge. unfold max_content_length. lia.
  - intros ->. reflexivity.
  - intros v -> Hv Hn. destruct v; [congruence |]. cbn [PyStr.truthy].
    now rewrite Hn.
Qed.

Lemma content_length_ceiling_witness :
  headers_get "content-length" (req_headers Sample.huge) = Some "10485761" /\
  PyStr.int "10485761" = Some 10485761 /\
  _validate_request Sample.huge = false.
Proof.
  split; [reflexivity |]. split; [reflexivity |].
  apply (proj1 (content_length_ceiling Sample.huge) "10485761" 10485761);
    [reflexivity | reflexivity | lia].
Defined.

(** C8, as stated, fails: a content-length of 4301 nines is a number far
    above the ceiling, yet [int] refuses a numeral of that length and the
    validator admits the request. *)
Lemma long_numeral_admitted :
  all_in PyStr.is_digit (nines 4301) = true /\
  PyStr.digits (nines 4301) 0 false = Some (10 ^ 4301 - 1) /\
  10 * 1024 * 1024 < 10 ^ 4301 - 1 /\
  _validate_request
    (Sample.get "http://h/upload" "/upload" [("content-length", nines 4301)]) = true.
Proof.
  split; [vm_compute; reflexivity |].
  split; [vm_compute; reflexivity |].
  split; [vm_compute; reflexivity |].
  vm_compute. reflexivity.
Qed.

Example validate_longest_numeral :
  _validate_request
    (Sample.get "http://h/upload" "/upload" [("content-length", nines 4300)]) = false.
Proof. vm_compute. reflexivity. Qed.

Example int_separator_ahead :
  PyStr.int (String (ascii_of_nat 29) "10485761") = None /\
  _validate_request
    (Sample.get "http://h/upload" "/upload"
       [("content-length", String (ascii_of_nat 29) "10485761")]) = true.
Proof. split; vm_compute; reflexivity. Qed.

Example int_wide_blank : PyStr.int (String (ascii_of_nat 160) "5") = Some 5.
Proof. reflexivity. Qed.

Example validate_huge : _validate_request Sample.huge = false.
Proof. reflexivity. Qed.

Example validate_at_ceiling : _validate_request Sample.at_ceiling = true.
Proof. reflexivity. Qed.

Example validate_plain : _validate_request Sample.plain = true.
Proof. reflexivity. Qed.

(** C7, amended: for a request whose content-length header is missing,
    empty or a text that [int] reads as an integer, a suspicious pattern
    in the lower-cased URL or in a lower-cased "name:value" header pair
    makes validation fail; a request free of patterns in URL and headers
    passes unless its content-length is read as an integer above the
    ceiling; and a request whose non-empty content-length [int] cannot
    read passes whatever its URL and headers hold. *)
Theorem suspicious_request_rejected (request : Request) :
  (length_readable request = true ->
   suspicious (PyStr.lower (req_url request)) = true \/
   Exists (fun h => suspicious (header_str h) = true) (req_headers request) ->
   _validate_request request = false) /\
  (length_over request = false ->
   suspicious (PyStr.lower (req_url request)) = false ->
   Forall (fun h => suspicious (header_str h) = false) (req_headers request) ->
   _validate_request request = true) /\
  (length_readable request = false -> _validate_request request = true).
Proof.
  unfold length_readable, length_over, _validate_request, validate_body.
  split; [| split].
  - intros Hr Hs. apply scan_patterns_false in Hs. rewrite Hs.
    destruct (headers_get _ _) as [v|]; [| reflexivity].
    destruct (PyStr.truthy v); [| reflexivity].
    destruct (PyStr.int v) as [n|]; [| discriminate].
    now destruct (max_content_length <? n).
  - intros Hw Hu Hh.
    assert (Hs : scan_patterns request = true) by now apply scan_patterns_true.
    rewrite Hs.
    destruct (headers_get _ _) as [v|]; [| reflexivity].
    destruct (PyStr.truthy v); [| reflexivity].
    destruct (PyStr.int v) as [n|]; [| reflexivity].
    simpl in Hw. now rewrite Hw.
  - intros Hr.
    destruct (headers_get _ _) as [v|]; [| discriminate].
    destruct (PyStr.truthy v); [| discriminate].
    destruct (PyStr.int v) as [n|]; [discriminate | reflexivity].
Qed.

Lemma suspicious_request_rejected_witness :
  length_readable Sample.script = true /\
  suspicious (PyStr.lower (req_url Sample.script)) = true /\
  _validate_request Sample.script = false.
Proof.
  split; [reflexivity |]. split; [reflexivity |].
  apply (proj1 (suspicious_request_rejected Sample.script));
    [reflexivity | left; reflexivity].
Defined.

(** C7, as stated, fails: with a content-length that is no integer the
    validator gives up and admits a request whose URL holds "<script". *)
Lemma suspicious_url_admitted :
  suspicious (PyStr.lower (req_url Sample.script_bad_length)) = true /\
  _validate_request Sample.script_bad_length = true.
Proof. split; reflexivity. Qed.

Example validate_script : _validate_request Sample.script = false.
Proof. reflexivity. Qed.

(** ** Header policy *)

Lemma remove_key_absent (k : string) (hs : list header) :
  absent k hs -> remove_key k hs = hs.
Proof.
  induction 1 as [|h r Hh _ IH]; simpl; [reflexivity |].
  destruct (String.eqb_spec (fst h) k); [contradiction | now rewrite IH].
Qed.

Lemma absent_remove_key (k : string) (hs : list header) :
  absent k (remove_key k hs).
Proof.
  induction hs as [|h r IH]; simpl; [constructor |].
  destruct (String.eqb_spec (fst h) k); [exact IH | now constructor].
Qed.

Lemma absent_remove_other (k k' : string) (hs : list header) :
  absent k hs -> absent k (remove_key k' hs).
Proof.
  induction 1 as [|h r Hh _ IH]; simpl; [constructor |].
  destruct (String.eqb (fst h) k'); [exact IH | now constructor].
Qed.

Lemma absent_set_raw (k k' v' : string) (hs : list header) :
  k <> k' -> absent k hs -> absent k (set_raw k' v' hs).
Proof.
  intros Hne. induction 1 as [|h r Hh Hr IH]; simpl.
  - constructor; [simpl; congruence | constructor].
  - destruct (String.eqb (fst h) k').
    + constructor; [simpl; congruence | now apply absent_remove_other].
    + now constructor.
Qed.

Lemma once_fixed (k v : string) (hs : list header) :
  once k v hs -> set_raw k v hs = hs.
Proof.
  induction 1 as [r Hr | h r Hh _ IH]; simpl.
  - rewrite String.eqb_refl. now rewrite remove_key_absent.
  - destruct (String.eqb_spec (fst h) k); [contradiction | now rewrite IH].
Qed.

Lemma set_raw_once (k v : string) (hs : list header) :
  once k v (set_raw k v hs).
Proof.
  induction hs as [|h r IH]; simpl.
  - constructor. constructor.
  - destruct (String.eqb_spec (fst h) k).
    + constructor. apply absent_remove_key.
    + now constructor.
Qed.

Lemma once_remove_other (k v k' : string) (hs : list header) :
  k <> k' -> once k v hs -> once k v (remove_key k' hs).
Proof.
  intros Hne. induction 1 as [r Hr | h r Hh _ IH]; simpl.
  - destruct (String.eqb_spec k k'); [contradiction |].
    constructor. now apply absent_remove_other.
  - destruct (String.eqb (fst h) k'); [exact IH | now constructor].
Qed.

Lemma once_set_other (k v k' v' : string) (hs : list header) :
  k <> k' -> once k v hs -> once k v (set_raw k' v' hs).
Proof.
  intros Hne. induction 1 as [r Hr | h r Hh Ho IH]; simpl.
  - destruct (String.eqb_spec k k'); [contradiction |].
    constructor. now apply absent_set_raw.
  - destruct (String.eqb_spec (fst h) k') as [E|E].
    + apply once_later; [simpl; congruence | now apply once_remove_other].
    + now constructor.
Qed.

Lemma once_get (key v : string) (hs : list header) :
  once (PyStr.lower key) v hs -> headers_get key hs = Some v.
Proof.
  unfold headers_get. induction 1 as [r Hr | h r Hh _ IH]; simpl.
  - now rewrite String.eqb_refl.
  - destruct (String.eqb_spec (fst h) (PyStr.lower key)); [contradiction | exact IH].
Qed.

Lemma set_all_keeps (k v : string) (kvs hs : list header) :
  ~ In k (map lower_key kvs) -> once k v hs -> once k v (set_all kvs hs).
Proof.
  unfold set_all. revert hs. induction kvs as [|kv kvs IH]; intros hs Hk Ho; simpl.
  - exact Ho.
  - apply IH; [intros Hin; apply Hk; now right |].
    apply once_set_other; [| exact Ho].
    intros ->. apply Hk. now left.
Qed.

Lemma set_all_once (kvs hs : list header) (kv : header) :
  List.NoDup (map lower_key kvs) -> In kv kvs ->
  once (lower_key kv) (snd kv) (set_all kvs hs).
Proof.
  revert hs. induction kvs as [|a kvs IH]; intros hs Hnd Hin; [destruct Hin |].
  inversion Hnd as [|x l Hx Hl]; subst.
  destruct Hin as [-> | Hin].
  - change (set_all (kv :: kvs) hs)
      with (set_all kvs (headers_set (fst kv) (snd kv) hs)).
    apply set_all_keeps; [exact Hx | apply set_raw_once].
  - change (set_all (a :: kvs) hs)
      with (set_all kvs (headers_set (fst a) (snd a) hs)).
    now apply IH.
Qed.

Lemma set_all_fixed (kvs hs : list header) :
  (forall kv, In kv kvs -> once (lower_key kv) (snd kv) hs) ->
  set_all kvs hs = hs.
Proof.
  unfold set_all. induction kvs as [|a kvs IH]; intros Hall; simpl; [reflexivity |].
  unfold headers_set at 2. rewrite once_fixed by (apply Hall; now left).
  apply IH. intros kv Hin. apply Hall. now right.
Qed.

Lemma security_headers_distinct : List.NoDup (map lower_key security_headers).
Proof.
  repeat (constructor; [simpl; intuition discriminate |]). constructor.
Qed.

(** Every header of the policy is set, once, on a response that went
    through [_add_security_headers]. *)
Lemma security_headers_applied (response : Response) (kv : header) :
  In kv security_headers ->
  once (lower_key kv) (snd kv) (resp_headers (_add_security_headers response)).
Proof.
  intros Hin. unfold _add_security_headers. cbn [resp_headers].
  apply set_all_once; [apply security_headers_distinct | exact Hin].
Qed.

(** C9: applying the header policy to a response that already went
    through it changes nothing, so both agree on every header name; each
    header of the policy is then held once, with the policy's value. The
    function takes the response alone and is defined on every response. *)
Theorem add_security_headers_idempotent (response : Response) :
  _add_security_headers (_add_security_headers response)
    = _add_security_headers response /\
  (forall name,
     headers_get name (resp_headers (_add_security_headers (_add_security_headers response)))
       = headers_get name (resp_headers (_add_security_headers response))) /\
  (forall kv, In kv security_headers ->
     once (lower_key kv) (snd kv) (resp_headers (_add_security_headers response)) /\
     headers_get (fst kv) (resp_headers (_add_security_headers response)) = Some (snd kv)).
Proof.
  assert (E : _add_security_headers (_add_security_headers response)
              = _add_security_headers response).
  { unfold _add_security_headers at 1. cbn [status_code resp_body resp_headers].
    rewrite set_all_fixed; [now destruct response |].
    intros kv Hin. now apply security_headers_applied. }
  split; [exact E |]. split.
  - intros name. now rewrite E.
  - intros kv Hin. split; [now apply security_headers_applied |].
    apply once_get. now apply security_headers_applied.
Qed.

Example headers_overwritten :
  let sent :=
    resp_headers (_add_security_headers
      {| status_code := 200;
         resp_headers := [("x-frame-options", "SAMEORIGIN"); ("set-cookie", "a");
                          ("x-frame-options", "ALLOWALL")];
         resp_body := BRaw "ok" |}) in
  firstn 3 sent = [("x-frame-options", "DENY"); ("set-cookie", "a");
                   ("x-content-type-options", "nosniff")] /\
  length sent = 11%nat /\
  headers_get "X-Frame-Options" sent = Some "DENY".
Proof. repeat split. Qed.

(** ** Rate limiter *)

Lemma window_positive (t : LimitClass) : 0 < window (rate_limits t).
Proof. destruct t; reflexivity. Qed.

Lemma requests_small (t : LimitClass) : requests (rate_limits t) <= 1000.
Proof. destruct t; simpl; lia. Qed.

Section FixedWindow.

Variable request : Request.
Variable m : gmap string entry.

Ltac open_check :=
  unfold _check_rate_limit, rate_limit_body, bind, try_except, has_client, ret, lift,
    redis_get, redis_setex, redis_incr, on_client;
  change (rate_key (_get_client_ip request) (limit_type (req_path request)))
    with (key_of request);
  change (rate_limits (limit_type (req_path request))) with (limits_of request);
  pose proof (window_positive (class_of request)) as Hw;
  pose proof (requests_small (class_of request)) as Hr;
  fold (limits_of request) in Hw, Hr;
  generalize dependent (limits_of request); intros limits;
  generalize (key_of request); intros key Hw Hr;
  cbn [store_get store_setex store_incr redis_mem negb];
  unfold mem_get, mem_setex, mem_incr.

Lemma rate_check_first :
  m !! key_of request = None ->
  _check_rate_limit request (Some m)
  = (Ret true,
     Some (<[key_of request := (VInt 1, Some (window (limits_of request)))]> m),
     [get_call (key_of request);
      setex_call (key_of request) (window (limits_of request)) (VInt 1)]).
Proof.
  open_check. intros ->. cbn [int_of_value fst].
  replace (window limits <=? 0) with false by (symmetry; apply Z.leb_gt; lia).
  reflexivity.
Qed.

Lemma rate_check_below (n : Z) (ttl : option Z) :
  m !! key_of request = Some (VInt n, ttl) ->
  int64_min <= n -> n < requests (limits_of request) ->
  _check_rate_limit request (Some m)
  = (Ret true, Some (<[key_of request := (VInt (n + 1), ttl)]> m),
     [get_call (key_of request); incr_call (key_of request)]).
Proof.
  open_check. intros E Hlo Hhi. rewrite E. cbn [int_of_value fst].
  replace (requests limits <=? n) with false by (symmetry; apply Z.leb_gt; lia).
  rewrite E.
  replace ((int64_min <=? n) && (n <? int64_max)) with true; [reflexivity |].
  symmetry. apply andb_true_iff. split; [apply Z.leb_le | apply Z.ltb_lt].
  - exact Hlo.
  - unfold int64_max. lia.
Qed.

Lemma rate_check_full (n : Z) (ttl : option Z) :
  m !! key_of request = Some (VInt n, ttl) -> requests (limits_of request) <= n ->
  _check_rate_limit request (Some m) = (Ret false, Some m, [get_call (key_of request)]).
Proof.
  open_check. intros E Hge. rewrite E. cbn [int_of_value fst].
  replace (requests limits <=? n) with true by (symmetry; apply Z.leb_le; lia).
  reflexivity.
Qed.

End FixedWindow.

(** C4: on a store that answers, the rate check of a request works on
    the key of its identity and class. Without an entry it creates one
    with value 1 and the class's window as time to live and admits; with
    a count (a value the store holds as an integer) below the class's
    maximum it adds one to the count and admits; with a count at or above
    the maximum it rejects and leaves the store as it was. *)
Theorem fixed_window_allow (request : Request) (m : gmap string entry) :
  let t := limit_type (req_path request) in
  let key := rate_key (_get_client_ip request) t in
  (m !! key = None ->
   _check_rate_limit request (Some m)
   = (Ret true, Some (<[key := (VInt 1, Some (window (rate_limits t)))]> m),
      [get_call key; setex_call key (window (rate_limits t)) (VInt 1)])) /\
  (forall n ttl,
     m !! key = Some (VInt n, ttl) -> int64_min <= n -> n < requests (rate_limits t) ->
     _check_rate_limit request (Some m)
     = (Ret true, Some (<[key := (VInt (n + 1), ttl)]> m),
        [get_call key; incr_call key])) /\
  (forall n ttl,
     m !! key = Some (VInt n, ttl) -> requests (rate_limits t) <= n ->
     _check_rate_limit request (Some m) = (Ret false, Some m, [get_call key])).
Proof.
  intros t key. split; [| split].
  - apply rate_check_first.
  - intros n ttl. apply rate_check_below.
  - intros n ttl. apply rate_check_full.
Qed.

Lemma fixed_window_allow_witness :
  let key := "rate_limit:10.0.0.9:auth" in
  let m : gmap string entry := {[ key := (VInt 3, Some 60) ]} in
  m !! key = Some (VInt 3, Some 60) /\
  _check_rate_limit Sample.login (Some m)
  = (Ret true, Some (<[key := (VInt 4, Some 60)]> m), [get_call key; incr_call key]).
Proof.
  intros key m. split; [vm_compute; reflexivity |].
  apply (proj1 (proj2 (fixed_window_allow Sample.login m)) 3 (Some 60)).
  - vm_compute. reflexivity.
  - unfold int64_min. lia.
  - simpl. lia.
Defined.

(** C5: the rate check always returns a verdict and never raises; the
    verdict is to admit when no store is configured, and whenever a call
    made on the store raised. *)
Theorem rate_limit_fails_open {S : Type} `{CounterStore S}
  (request : Request) (c : option S) :
  exists b c' t,
    _check_rate_limit request c = (Ret b, c', t) /\
    (c = None -> b = true /\ c' = None /\ t = []) /\
    (any_failed t -> b = true).
Proof.
  unfold _check_rate_limit, rate_limit_body, bind, try_except, has_client, ret, lift,
    redis_get, redis_setex, redis_incr, on_client, any_failed.
  set (key := rate_key _ _). set (limits := rate_limits _).
  clearbody key limits.
  destruct c as [s|]; cbn [negb].
  - destruct (store_get key s) as [[[v|]|e] s1]; cbn [raised].
    + destruct (int_of_value v) as [n|e].
      * destruct (requests limits <=? n).
        -- eexists _, _, _. split; [reflexivity |]. split; [discriminate |].
           cbn. intros Hex. inversion Hex as [? ? Hf | ? ? Hf]; subst.
           ++ discriminate Hf.
           ++ inversion Hf.
        -- destruct (store_incr key s1) as [[z|e] s2];
             eexists _, _, _; (split; [reflexivity |]); split;
             solve [discriminate | reflexivity].
      * eexists _, _, _. split; [reflexivity |]. split; [discriminate | reflexivity].
    + destruct (store_setex key (window limits) (VInt 1) s1) as [[u|e] s2];
        eexists _, _, _; (split; [reflexivity |]); split;
        solve [discriminate | reflexivity].
    + eexists _, _, _. split; [reflexivity |]. split; [discriminate | reflexivity].
  - eexists _, _, _. split; [reflexivity |]. split; [| reflexivity].
    intros _. repeat split.
Qed.

Lemma rate_limit_fails_open_witness :
  fst (fst (_check_rate_limit Sample.login (Some Unreachable))) = Ret true /\
  any_failed (snd (_check_rate_limit Sample.login (Some Unreachable))).
Proof.
  destruct (rate_limit_fails_open Sample.login (Some Unreachable))
    as (b & c' & t & E & _ & Hf).
  rewrite E. cbn [fst snd].
  assert (Ht : any_failed t).
  { replace t with (snd (_check_rate_limit Sample.login (Some Unreachable)))
      by (rewrite E; reflexivity).
    apply Exists_cons_hd. reflexivity. }
  split; [now rewrite (Hf Ht) | exact Ht].
Defined.

(** Every store call of a rate check is on the key of the request's
    identity and limit class. *)
Lemma rate_check_key {S : Type} `{CounterStore S} (request : Request) (c : option S) :
  Forall (fun e => c_key e = rate_key (_get_client_ip request)
                               (limit_type (req_path request)))
    (snd (_check_rate_limit request c)).
Proof.
  unfold _check_rate_limit, rate_limit_body, bind, try_except, has_client, ret, lift,
    redis_get, redis_setex, redis_incr, on_client.
  set (key := rate_key _ _). set (limits := rate_limits _).
  clearbody key limits.
  destruct c as [s|]; cbn [negb]; [| constructor].
  destruct (store_get key s) as [[[v|]|e] s1]; cbn [raised].
  - destruct (int_of_value v) as [n|e].
    + destruct (requests limits <=? n).
      * cbn. repeat constructor.
      * destruct (store_incr key s1) as [[z|e] s2]; cbn; repeat constructor.
    + cbn. repeat constructor.
  - destruct (store_setex key (window limits) (VInt 1) s1) as [[u|e] s2];
      cbn; repeat constructor.
  - cbn. repeat constructor.
Qed.

Section Burst.

Variable request : Request.

Lemma checks_step (n : nat) (c : option (gmap string entry)) :
  checks (Datatypes.S n) request c
  = match _check_rate_limit request c with
    | (Ret b, c', _) => let '(bs, c'') := checks n request c' in (b :: bs, c'')
    | (Raise _, c', _) => ([], c')
    end.
Proof. reflexivity. Qed.

Lemma checks_to_limit (n : nat) :
  forall (m : gmap string entry) (j : Z) (ttl : option Z),
    m !! key_of request = Some (VInt j, ttl) -> int64_min <= j ->
    j + Z.of_nat n = requests (limits_of request) ->
    checks (Datatypes.S n) request (Some m)
    = ((List.repeat true n ++ [false])%list,
       Some (<[key_of request := (VInt (requests (limits_of request)), ttl)]> m)).
Proof.
  induction n as [|n IH]; intros m j ttl Hm Hlo Hsum.
  - rewrite checks_step, (rate_check_full request m j ttl Hm) by lia.
    cbn. replace (requests (limits_of request)) with j by lia. now rewrite insert_id.
  - rewrite checks_step, (rate_check_below request m j ttl Hm Hlo) by lia.
    rewrite (IH (<[key_of request := (VInt (j + 1), ttl)]> m) (j + 1) ttl);
      [| apply lookup_insert_eq | lia | lia].
    now rewrite insert_insert_eq.
Qed.

(** With no entry for the key, as many checks as the class allows are
    admitted one after the other and the next one is rejected; the count
    then stands at the maximum, with the window as time to live. *)
Theorem window_burst (m : gmap string entry) :
  m !! key_of request = None ->
  checks (Datatypes.S (Z.to_nat (requests (limits_of request)))) request (Some m)
  = ((List.repeat true (Z.to_nat (requests (limits_of request))) ++ [false])%list,
     Some (<[key_of request :=
               (VInt (requests (limits_of request)),
                Some (window (limits_of request)))]> m)).
Proof.
  intros Hm.
  assert (Hpos : exists n, Z.to_nat (requests (limits_of request)) = Datatypes.S n /\
                           1 + Z.of_nat n = requests (limits_of request)).
  { exists (Z.to_nat (requests (limits_of request) - 1)).
    unfold limits_of. destruct (class_of request); cbn; split; reflexivity. }
  destruct Hpos as (n & Hn & Hsum). rewrite Hn.
  rewrite checks_step, (rate_check_first request m Hm).
  rewrite (checks_to_limit n _ 1 (Some (window (limits_of request))));
    [| apply lookup_insert_eq | unfold int64_min; lia | exact Hsum].
  now rewrite insert_insert_eq.
Qed.

End Burst.

Example auth_burst :
  fst (checks 6 Sample.login Sample.empty_store) = [true; true; true; true; true; false] /\
  fst (checks 1 Sample.plain (snd (checks 6 Sample.login Sample.empty_store))) = [true].
Proof. split; vm_compute; reflexivity. Qed.

Example unreachable_store_admits :
  _check_rate_limit Sample.login (Some Unreachable)
  = (Ret true, Some Unreachable,
     [{| c_op := OpGet; c_key := "rate_limit:10.0.0.9:auth"; c_failed := true |}]).
Proof. reflexivity. Qed.

Example failed_increment_admits :
  fst (fst (_check_rate_limit Sample.login
              (Some {| faults := [false; true];
                       kept := {[ "rate_limit:10.0.0.9:auth" := (VInt 3, Some 60) ]} |})))
  = Ret true.
Proof. vm_compute. reflexivity. Qed.

Example unconfigured_store_admits :
  _check_rate_limit Sample.login (None : option (gmap string entry)) = (Ret true, None, []).
Proof. reflexivity. Qed.

(** ** Pipeline *)

Section Dispatch.

Context {S : Type} `{CounterStore S}.

Variable request : Request.
Variable call_next : Request -> outcome Response.
Variable clk : Clock.

(** A request the rate check turns down is answered 429 on the spot. *)
Lemma dispatch_rate_limited (c c1 : option S) (t1 : list call) :
  _check_rate_limit request c = (Ret false, c1, t1) ->
  dispatch request call_next clk c = (Ret rate_limit_reply, c1, t1).
Proof.
  intros E. unfold dispatch, try_except, bind. rewrite E. cbn.
  now rewrite app_nil_r.
Qed.

(** A request the rate check lets through and the validator turns down is
    answered 400, with the store as the rate check left it. *)
Lemma dispatch_invalid (c c1 : option S) (t1 : list call) :
  _check_rate_limit request c = (Ret true, c1, t1) ->
  _validate_request request = false ->
  dispatch request call_next clk c = (Ret bad_request_reply, c1, t1).
Proof.
  intros E Hv. unfold dispatch, try_except, bind. rewrite E, Hv. cbn.
  now rewrite app_nil_r.
Qed.

(** A handler that raises is answered 500. *)
Lemma dispatch_handler_raises (c c1 : option S) (t1 : list call) (e : exn) :
  _check_rate_limit request c = (Ret true, c1, t1) ->
  _validate_request request = true ->
  call_next request = Raise e ->
  dispatch request call_next clk c = (Ret internal_error_reply, c1, t1).
Proof.
  intros E Hv Hc. unfold dispatch, try_except, bind, lift. rewrite E, Hv, Hc. cbn.
  now rewrite !app_nil_r.
Qed.

(** An admitted request gets the handler's response with the header
    policy applied to it. *)
Lemma dispatch_admitted (c c1 : option S) (t1 : list call) (response : Response) :
  _check_rate_limit request c = (Ret true, c1, t1) ->
  _validate_request request = true ->
  call_next request = Ret response ->
  returned (dispatch request call_next clk c) = Some (_add_security_headers response).
Proof.
  intros E Hv Hc. unfold returned, dispatch, try_except, bind, lift.
  rewrite E, Hv, Hc. cbn [negb].
  unfold _log_request, try_except, bind, has_client, ret, redis_setex, on_client.
  destruct c1 as [s1|]; [| reflexivity].
  now destruct (store_setex _ _ _ s1) as [[[]|e] s2].
Qed.

(** Whatever the store and the handler do, the pipeline hands back a
    response: no exception leaves [dispatch]. *)
Lemma dispatch_never_raises (c : option S) :
  exists response, returned (dispatch request call_next clk c) = Some response.
Proof.
  unfold returned, dispatch, try_except, bind, lift.
  destruct (_check_rate_limit request c) as [[[[|]|e] c1] t1]; cbn [negb].
  - destruct (_validate_request request); cbn [negb]; [| eexists; reflexivity].
    destruct (call_next request) as [response|e]; [| eexists; reflexivity].
    unfold _log_request, try_except, bind, has_client, ret, redis_setex, on_client.
    destruct c1 as [s1|]; [| eexists; reflexivity].
    destruct (store_setex _ _ _ s1) as [[[]|e] s2]; eexists; reflexivity.
  - eexists; reflexivity.
  - eexists; reflexivity.
Qed.

End Dispatch.

(** The store calls of a rate check: none without a client, and with one
    a read of the request's counter key ahead of anything else. *)
Lemma rate_check_calls {S : Type} `{CounterStore S} (request : Request) (c : option S) :
  (c = None -> _check_rate_limit request c = (Ret true, None, [])) /\
  (forall s, c = Some s ->
     exists failed rest,
       snd (_check_rate_limit request c)
       = {| c_op := OpGet; c_key := key_of request; c_failed := failed |} :: rest).
Proof.
  split; [intros ->; reflexivity |]. intros s ->.
  unfold _check_rate_limit, rate_limit_body, bind, try_except, has_client, ret, lift,
    redis_get, redis_setex, redis_incr, on_client.
  change (rate_key (_get_client_ip request) (limit_type (req_path request)))
    with (key_of request).
  set (key := key_of request). set (limits := rate_limits _). clearbody key limits.
  cbn [negb].
  destruct (store_get key s) as [[[v|]|e] s1]; cbn [raised].
  - destruct (int_of_value v) as [n|e].
    + destruct (requests limits <=? n).
      * cbn. eauto.
      * destruct (store_incr key s1) as [[z|e] s2]; cbn; eauto.
    + cbn. eauto.
  - destruct (store_setex key (window limits) (VInt 1) s1) as [[u|e] s2]; cbn; eauto.
  - cbn. eauto.
Qed.

(** C1, amended: the rate limiter runs before the validator. A request
    the rate check rejects gets the 429 response whatever the validator
    would say and without the handler; a request that fails validation
    gets the 400 response once the rate check has admitted it, with the
    client and the store calls as that check left them: with a client
    configured they start with the read of the request's counter key,
    and without one there is no store call. *)
Theorem rate_check_precedes_validation {S : Type} `{CounterStore S}
  (request : Request) (call_next : Request -> outcome Response) (clk : Clock)
  (c c1 : option S) (b : bool) (t1 : list call) :
  _check_rate_limit request c = (Ret b, c1, t1) ->
  (b = false ->
   dispatch request call_next clk c = (Ret rate_limit_reply, c1, t1)) /\
  (b = true -> _validate_request request = false ->
   dispatch request call_next clk c = (Ret bad_request_reply, c1, t1)) /\
  (c = None -> c1 = None /\ t1 = []) /\
  (forall s, c = Some s ->
     exists failed rest,
       t1 = {| c_op := OpGet; c_key := key_of request; c_failed := failed |} :: rest).
Proof.
  intros E. split; [| split; [| split]].
  - intros ->. now apply dispatch_rate_limited.
  - intros -> Hv. now apply dispatch_invalid.
  - intros Hc. destruct (rate_check_calls request c) as [Hnone _].
    rewrite (Hnone Hc) in E. injection E as _ <- <-. auto.
  - intros s Hc. destruct (rate_check_calls request c) as [_ Hsome].
    destruct (Hsome s Hc) as (failed & rest & Ht). rewrite E in Ht. eauto.
Qed.

Lemma rate_check_precedes_validation_witness :
  _check_rate_limit Sample.script Sample.empty_store
  = (Ret true, Sample.full "rate_limit:10.0.0.9:default" 1 60,
     [get_call "rate_limit:10.0.0.9:default";
      setex_call "rate_limit:10.0.0.9:default" 60 (VInt 1)]) /\
  dispatch Sample.script Sample.handler Sample.clock Sample.empty_store
  = (Ret bad_request_reply, Sample.full "rate_limit:10.0.0.9:default" 1 60,
     [get_call "rate_limit:10.0.0.9:default";
      setex_call "rate_limit:10.0.0.9:default" 60 (VInt 1)]).
Proof.
  assert (E : _check_rate_limit Sample.script Sample.empty_store
              = (Ret true, Sample.full "rate_limit:10.0.0.9:default" 1 60,
                 [get_call "rate_limit:10.0.0.9:default";
                  setex_call "rate_limit:10.0.0.9:default" 60 (VInt 1)]))
    by (vm_compute; reflexivity).
  split; [exact E |].
  apply (proj1 (proj2 (rate_check_precedes_validation Sample.script Sample.handler
                         Sample.clock _ _ true _ E)));
    reflexivity.
Defined.

Example invalid_without_client :
  dispatch Sample.script Sample.handler Sample.clock (None : option (gmap string entry))
  = (Ret bad_request_reply, None, []).
Proof. reflexivity. Qed.

Example invalid_store_down :
  dispatch Sample.script Sample.handler Sample.clock (Some Unreachable)
  = (Ret bad_request_reply, Some Unreachable,
     [{| c_op := OpGet; c_key := "rate_limit:10.0.0.9:default"; c_failed := true |}]).
Proof. reflexivity. Qed.

(** C1, as stated, fails: on a store that answers, a request that fails
    validation has its counter read and created before it is answered
    400, and is answered 429, not 400, when its counter stands at the
    limit. *)
Lemma validation_after_rate_check :
  _validate_request Sample.script = false /\
  dispatch Sample.script Sample.handler Sample.clock Sample.empty_store
  = (Ret bad_request_reply, Sample.full "rate_limit:10.0.0.9:default" 1 60,
     [get_call "rate_limit:10.0.0.9:default";
      setex_call "rate_limit:10.0.0.9:default" 60 (VInt 1)]) /\
  dispatch Sample.script Sample.handler Sample.clock
    (Sample.full "rate_limit:10.0.0.9:default" 100 60)
  = (Ret rate_limit_reply, Sample.full "rate_limit:10.0.0.9:default" 100 60,
     [get_call "rate_limit:10.0.0.9:default"]).
Proof. repeat split; vm_compute; reflexivity. Qed.

Lemma json_reply_headers (status : Z) (content : list (string * json)) (kv : header) :
  In kv security_headers ->
  headers_get (fst kv) (resp_headers (JSONResponse status content)) = None.
Proof.
  intros Hin. unfold JSONResponse, headers_get. cbn [resp_headers find fst].
  repeat (destruct Hin as [<- | Hin]; [reflexivity |]). destruct Hin.
Qed.

(** C2: the three replies the pipeline builds itself are returned as they
    are built, with content-length and content-type and none of the
    security headers: a rate-limited request, an invalid request and a
    request whose handler raises (the specification asks X-Frame-Options: DENY and
    X-Content-Type-Options: nosniff on each). *)
Theorem short_circuit_replies_bare :
  let sent r := match returned r with
                | Some response => (status_code response, resp_headers response)
                | None => (0, [])
                end in
  sent (dispatch Sample.api_call Sample.handler Sample.clock
          (Sample.full "rate_limit:10.0.0.9:api" 1000 3600))
  = (429, [("content-length", "48"); ("content-type", "application/json")]) /\
  sent (dispatch Sample.script Sample.handler Sample.clock Sample.empty_store)
  = (400, [("content-length", "34"); ("content-type", "application/json")]) /\
  sent (dispatch Sample.plain Sample.broken_handler Sample.clock Sample.empty_store)
  = (500, [("content-length", "33"); ("content-type", "application/json")]) /\
  headers_get "X-Frame-Options" [("content-length", "48"); ("content-type", "application/json")]
  = None /\
  headers_get "X-Frame-Options" (resp_headers (_add_security_headers rate_limit_reply))
  = Some "DENY".
Proof. repeat split; vm_compute; reflexivity. Qed.

(** C3: a request of class api (window 3600) that is turned down by the
    rate check is told retry_after 60; the reply is the same for every
    class. *)
Theorem retry_after_api :
  limit_type (req_path Sample.api_call) = Api /\
  window (rate_limits Api) = 3600 /\
  returned (dispatch Sample.api_call Sample.handler Sample.clock
              (Sample.full "rate_limit:10.0.0.9:api" 1000 3600))
  = Some (JSONResponse 429
            [("error", JStr "Rate limit exceeded"); ("retry_after", JInt 60)]).
Proof. repeat split; vm_compute; reflexivity. Qed.

Example admitted_response_headers :
  match returned (dispatch Sample.plain Sample.handler Sample.clock Sample.empty_store) with
  | Some response =>
      status_code response = 200 /\
      headers_get "X-Frame-Options" (resp_headers response) = Some "DENY" /\
      headers_get "X-Content-Type-Options" (resp_headers response) = Some "nosniff"
  | None => False
  end.
Proof. vm_compute. repeat split. Qed.

(** * The rest of the module *)

(** ** More on text *)

Lemma length_append (a b : string) :
  String.length (a +:+ b) = (String.length a + String.length b)%nat.
Proof. induction a as [|c a IH]; simpl; [reflexivity | now rewrite IH]. Qed.

Lemma append_empty_r (a : string) : a +:+ EmptyString = a.
Proof. induction a as [|c a IH]; simpl; [reflexivity | now rewrite IH]. Qed.

Lemma lower_append (a b : string) :
  PyStr.lower (a +:+ b) = PyStr.lower a +:+ PyStr.lower b.
Proof. induction a as [|c a IH]; simpl; [reflexivity | now rewrite IH]. Qed.

Lemma lower_length (s : string) : String.length (PyStr.lower s) = String.length s.
Proof. induction s as [|c s IH]; simpl; [reflexivity | now rewrite IH]. Qed.

Lemma substring_lower (v s : string) :
  Substring v s -> Substring (PyStr.lower v) (PyStr.lower s).
Proof.
  intros (l & r & ->). exists (PyStr.lower l), (PyStr.lower r).
  now rewrite !lower_append.
Qed.

Lemma subseq_empty (s : string) : subseq EmptyString s.
Proof. induction s; [constructor | now apply sub_drop]. Qed.

Lemma subseq_refl (s : string) : subseq s s.
Proof. induction s; [constructor | now apply sub_keep]. Qed.

Lemma subseq_trans (a b c : string) : subseq a b -> subseq b c -> subseq a c.
Proof.
  intros Hab Hbc. revert a Hab.
  induction Hbc as [| x b c _ IH | x b c _ IH]; intros a Hab.
  - exact Hab.
  - inversion Hab; subst.
    + apply sub_keep. now apply IH.
    + apply sub_drop. now apply IH.
  - apply sub_drop. now apply IH.
Qed.

Lemma subseq_length (a b : string) :
  subseq a b -> (String.length a <= String.length b)%nat.
Proof. induction 1; simpl; lia. Qed.

Lemma subseq_occurs (c : ascii) (a b : string) :
  subseq a b -> occurs c b = false -> occurs c a = false.
Proof.
  induction 1 as [| x a b _ IH | x a b _ IH]; simpl; intros Hb.
  - reflexivity.
  - apply orb_false_iff in Hb as [Hx Hb]. rewrite Hx. now apply IH.
  - apply orb_false_iff in Hb as [_ Hb]. now apply IH.
Qed.

Lemma take_subseq (n : nat) (s : string) : subseq (PyText.take n s) s.
Proof.
  revert s. induction n as [|n IH]; intros [|c s]; simpl;
    try apply subseq_empty. apply sub_keep, IH.
Qed.

Lemma take_length (n : nat) (s : string) :
  (String.length (PyText.take n s) <= n)%nat.
Proof.
  revert s. induction n as [|n IH]; intros [|c s]; simpl; try lia.
  specialize (IH s). lia.
Qed.

Lemma delete_from_subseq (old : string) (s : string) :
  forall skip, subseq (PyText.delete_from old skip s) s.
Proof.
  induction s as [|c s IH]; intros skip; cbn [PyText.delete_from]; [constructor |].
  destruct skip as [|k]; [| apply sub_drop, IH].
  destruct (String.prefix old (String c s)); [apply sub_drop | apply sub_keep]; apply IH.
Qed.

Lemma delete_all_subseq (old s : string) : subseq (PyText.delete_all old s) s.
Proof.
  destruct old; simpl; [apply subseq_refl | apply delete_from_subseq].
Qed.

Lemma delete_char_gone (c : ascii) (s : string) :
  occurs c (PyText.delete_all (String c EmptyString) s) = false.
Proof.
  unfold PyText.delete_all. induction s as [|x s IH]; [reflexivity |].
  cbn [PyText.delete_from String.prefix String.length Nat.sub].
  destruct (ascii_dec c x) as [->|Hne].
  - destruct s; exact IH.
  - simpl. rewrite IH. destruct (Ascii.eqb_spec x c); [congruence | reflexivity].
Qed.

Lemma delete_all_absent (old s : string) :
  PyStr.contains old s = false -> PyText.delete_all old s = s.
Proof.
  destruct old as [|o old]; [reflexivity |]. unfold PyText.delete_all.
  induction s as [|c s IH]; [reflexivity |].
  cbn [PyStr.contains PyText.delete_from]. intros H.
  apply orb_false_iff in H as [Hp Hc]. rewrite Hp. now rewrite IH.
Qed.

Lemma lstrip_subseq (s : string) : subseq (PyStr.lstrip s) s.
Proof.
  induction s as [|c s IH]; simpl; [constructor |].
  destruct (PyStr.is_space c); [now apply sub_drop | apply subseq_refl].
Qed.

Lemma rstrip_subseq (s : string) : subseq (PyStr.rstrip s) s.
Proof.
  induction s as [|c s IH]; simpl; [constructor |].
  destruct (PyStr.rstrip s).
  - destruct (PyStr.is_space c); [apply subseq_empty | apply sub_keep, subseq_empty].
  - now apply sub_keep.
Qed.

Lemma strip_subseq (s : string) : subseq (PyStr.strip s) s.
Proof.
  unfold PyStr.strip. eapply subseq_trans; [apply rstrip_subseq | apply lstrip_subseq].
Qed.

Lemma strip_clean (s : string) :
  starts_space s = false -> ends_space s = false -> PyStr.strip s = s.
Proof.
  intros Hs He. unfold PyStr.strip.
  assert (El : PyStr.lstrip s = s) by (destruct s; simpl in *; [| rewrite Hs]; reflexivity).
  rewrite El. clear Hs El. induction s as [|c s IH]; [reflexivity |].
  cbn [PyStr.rstrip]. destruct s as [|c' s'].
  - simpl in *. now rewrite He.
  - rewrite IH by exact He. reflexivity.
Qed.

(** ** InputSanitizer.sanitize_string *)

Lemma fold_delete_subseq (olds : list string) :
  forall s, subseq (fold_left (fun acc char => PyText.delete_all char acc) olds s) s.
Proof.
  induction olds as [|o olds IH]; intros s; simpl; [apply subseq_refl |].
  eapply subseq_trans; [apply IH | apply delete_all_subseq].
Qed.

Lemma fold_delete_gone (before after : list string) (c : ascii) (s : string) :
  occurs c (fold_left (fun acc char => PyText.delete_all char acc)
              (before ++ String c EmptyString :: after)%list s) = false.
Proof.
  rewrite fold_left_app. cbn [fold_left].
  eapply subseq_occurs; [apply fold_delete_subseq | apply delete_char_gone].
Qed.

Lemma fold_delete_absent (olds : list string) (s : string) :
  Forall (fun d => PyStr.contains d s = false) olds ->
  fold_left (fun acc char => PyText.delete_all char acc) olds s = s.
Proof.
  induction 1 as [|o olds Ho _ IH]; simpl; [reflexivity |].
  now rewrite delete_all_absent.
Qed.

Lemma slice_to_subseq (n : Z) (s : string) : subseq (PyText.slice_to n s) s.
Proof. unfold PyText.slice_to. destruct (0 <=? n); apply take_subseq. Qed.

(** The sanitizer only leaves characters out: what it returns is the
    argument with some characters dropped, in the same order. *)
Theorem sanitize_only_deletes (s : string) (max_length : Z) :
  subseq (sanitize_string (OStr s) max_length) s.
Proof.
  unfold sanitize_string.
  eapply subseq_trans; [apply strip_subseq |].
  eapply subseq_trans; [apply fold_delete_subseq |].
  destruct (max_length <? _); [apply slice_to_subseq | apply subseq_refl].
Qed.

(** With a bound that is not negative the result is never longer than it. *)
Theorem sanitize_length (s : string) (max_length : Z) :
  0 <= max_length ->
  Z.of_nat (String.length (sanitize_string (OStr s) max_length)) <= max_length.
Proof.
  intros Hmax. unfold sanitize_string.
  set (cut := if max_length <? _ then _ else _).
  assert (Hcut : Z.of_nat (String.length cut) <= max_length).
  { subst cut. destruct (max_length <? Z.of_nat (String.length s)) eqn:E.
    - unfold PyText.slice_to. replace (0 <=? max_length) with true
        by (symmetry; now apply Z.leb_le).
      pose proof (take_length (Z.to_nat max_length) s). lia.
    - apply Z.ltb_ge in E. exact E. }
  assert (Hsub : subseq (PyStr.strip
            (fold_left (fun acc char => PyText.delete_all char acc) dangerous_chars cut)) cut).
  { eapply subseq_trans; [apply strip_subseq | apply fold_delete_subseq]. }
  apply subseq_length in Hsub. lia.
Qed.

Lemma sanitize_length_witness :
  0 <= 5 /\
  Z.of_nat (String.length (sanitize_string (OStr "<b>hello world</b>") 5)) <= 5.
Proof. split; [lia | apply (sanitize_length "<b>hello world</b>" 5); lia]. Defined.

(** Whatever the argument and the bound, the result holds none of the
    five characters the sanitizer deletes one by one. *)
Theorem sanitize_no_markup (s : string) (max_length : Z) (c : ascii) :
  In c ["<"%char; ">"%char; Json.dquote; "'"%char; "&"%char] ->
  occurs c (sanitize_string (OStr s) max_length) = false.
Proof.
  intros Hin. unfold sanitize_string.
  eapply subseq_occurs; [apply strip_subseq |].
  set (cut := if max_length <? _ then _ else _). clearbody cut.
  destruct Hin as [<- | [<- | [<- | [<- | [<- | []]]]]].
  - apply (fold_delete_gone [] (tl dangerous_chars)).
  - apply (fold_delete_gone (firstn 1 dangerous_chars) (skipn 2 dangerous_chars)).
  - apply (fold_delete_gone (firstn 2 dangerous_chars) (skipn 3 dangerous_chars)).
  - apply (fold_delete_gone (firstn 3 dangerous_chars) (skipn 4 dangerous_chars)).
  - apply (fold_delete_gone (firstn 4 dangerous_chars) (skipn 5 dangerous_chars)).
Qed.

Lemma sanitize_no_markup_witness :
  In "&"%char ["<"%char; ">"%char; Json.dquote; "'"%char; "&"%char] /\
  occurs "&"%char (sanitize_string (OStr "a && <b> 'c'") 1000) = false.
Proof.
  assert (Hin : In "&"%char ["<"%char; ">"%char; Json.dquote; "'"%char; "&"%char])
    by (simpl; tauto).
  split; [exact Hin | exact (sanitize_no_markup "a && <b> 'c'" 1000 "&"%char Hin)].
Defined.

(** Text within the bound, free of the seven dangerous texts and without
    white space at either end comes back as it is. *)
Theorem sanitize_clean_identity (s : string) (max_length : Z) :
  Z.of_nat (String.length s) <= max_length ->
  Forall (fun d => PyStr.contains d s = false) dangerous_chars ->
  starts_space s = false -> ends_space s = false ->
  sanitize_string (OStr s) max_length = s.
Proof.
  intros Hlen Hclean Hs He. unfold sanitize_string.
  replace (max_length <? Z.of_nat (String.length s)) with false
    by (symmetry; now apply Z.ltb_ge).
  rewrite fold_delete_absent by exact Hclean. now apply strip_clean.
Qed.

Lemma sanitize_clean_identity_witness :
  sanitize_string (OStr "Hello, world") 1000 = "Hello, world".
Proof.
  apply sanitize_clean_identity; [simpl; lia | | reflexivity | reflexivity].
  repeat constructor.
Defined.

(** One pass per text: what is left can spell a deleted text again. *)
Example sanitize_leaves_script :
  sanitize_string (OStr "scrscriptipt") 1000 = "script".
Proof. reflexivity. Qed.

Example sanitize_other_argument : sanitize_string ONone 1000 = EmptyString.
Proof. reflexivity. Qed.

Example sanitize_negative_bound : sanitize_string (OStr "abcdefgh") (-3) = "abcde".
Proof. reflexivity. Qed.

(** ** InputSanitizer.validate_api_key *)

(** A key is accepted exactly when it has ten characters or more and none
    of the four words occurs in its lower-cased text; so a key in which
    one of the words occurs in any mix of letter cases is rejected. *)
Theorem api_key_verdict (api_key : string) :
  (validate_api_key api_key = true <->
   (10 <= String.length api_key)%nat /\
   forall w, In w api_key_words -> ~ Substring w (PyStr.lower api_key)) /\
  (forall v, Substring v api_key -> In (PyStr.lower v) api_key_words ->
             validate_api_key api_key = false).
Proof.
  assert (Hiff : validate_api_key api_key = true <->
                 (10 <= String.length api_key)%nat /\
                 forall w, In w api_key_words -> ~ Substring w (PyStr.lower api_key)).
  { unfold validate_api_key.
    destruct (negb (PyStr.truthy api_key) || (Z.of_nat (String.length api_key) <? 10)) eqn:E.
    - split; [discriminate |]. intros [Hlen _].
      apply orb_true_iff in E as [E | E].
      + destruct api_key; [simpl in Hlen; lia | discriminate].
      + apply Z.ltb_lt in E. lia.
    - apply orb_false_iff in E as [_ E]. apply Z.ltb_ge in E.
      rewrite negb_true_iff. split.
      + intros Hno. split; [lia |]. intros w Hw Hsub.
        apply contains_spec in Hsub.
        assert (existsb (fun p => PyStr.contains p (PyStr.lower api_key)) api_key_words = true)
          by (apply existsb_exists; eauto).
        congruence.
      + intros [_ Hno].
        destruct (existsb _ api_key_words) eqn:Ex; [| reflexivity].
        apply existsb_exists in Ex as (w & Hw & Hc).
        apply contains_spec in Hc. now destruct (Hno w Hw). }
  split; [exact Hiff |].
  intros v Hsub Hw. apply not_true_is_false. intros E.
  apply Hiff in E as [_ Hno]. destruct (Hno _ Hw). now apply substring_lower.
Qed.

Lemma api_key_verdict_witness :
  Substring "TeSt" "sk-TeSt-ABCDEF123" /\
  validate_api_key "sk-TeSt-ABCDEF123" = false.
Proof.
  assert (Hs : Substring "TeSt" "sk-TeSt-ABCDEF123")
    by (exists "sk-", "-ABCDEF123"; reflexivity).
  split; [exact Hs |].
  apply (proj2 (api_key_verdict "sk-TeSt-ABCDEF123") "TeSt" Hs). simpl. tauto.
Defined.

Example api_key_accepted : validate_api_key "sk-live-ABCDEF123" = true.
Proof. reflexivity. Qed.

Example api_key_short : validate_api_key "sk-live" = false.
Proof. reflexivity. Qed.

(** ** InputSanitizer.validate_email *)

Lemma lang_void (s : string) : ~ Lang Re.Void s.
Proof. intros H. inversion H. Qed.

Lemma lang_eps (s : string) : Lang Re.Eps s <-> s = EmptyString.
Proof. split; [intros H; now inversion H | intros ->; constructor]. Qed.

Lemma lang_cls (p : ascii -> bool) (s : string) :
  Lang (Re.Cls p) s <-> exists c, s = String c EmptyString /\ p c = true.
Proof.
  split.
  - intros H. inversion H; subst. eauto.
  - intros (c & -> & Hc). now constructor.
Qed.

Lemma lang_cat (a b : Re.re) (s : string) :
  Lang (Re.Cat a b) s <-> exists s1 s2, s = s1 +:+ s2 /\ Lang a s1 /\ Lang b s2.
Proof.
  split.
  - intros H. inversion H; subst. eauto.
  - intros (s1 & s2 & -> & H1 & H2). now constructor.
Qed.

Lemma lang_alt (a b : Re.re) (s : string) :
  Lang (Re.Alt a b) s <-> Lang a s \/ Lang b s.
Proof.
  split.
  - intros H. inversion H; subst; tauto.
  - intros [H | H]; [now apply LAltL | now apply LAltR].
Qed.

Lemma append_empty (a b : string) :
  a +:+ b = EmptyString -> a = EmptyString /\ b = EmptyString.
Proof. destruct a; simpl; [tauto | discriminate]. Qed.

Lemma nullable_spec (r : Re.re) : Re.nullable r = true <-> Lang r EmptyString.
Proof.
  induction r as [| | p | a IHa b IHb | a IHa b IHb | a IHa]; simpl.
  - split; [discriminate | intros H; now apply lang_void in H].
  - split; [constructor | reflexivity].
  - split; [discriminate | intros H; inversion H].
  - rewrite andb_true_iff, IHa, IHb, lang_cat. split.
    + intros [Ha Hb]. exists EmptyString, EmptyString. auto.
    + intros (s1 & s2 & E & Ha & Hb). symmetry in E.
      apply append_empty in E as [-> ->]. auto.
  - now rewrite orb_true_iff, IHa, IHb, lang_alt.
  - split; [constructor | reflexivity].
Qed.

(** A non-empty text of a starred expression starts with a non-empty
    text of the expression. *)
Lemma lang_star_cons (a : Re.re) (c : ascii) (s : string) :
  Lang (Re.Star a) (String c s) ->
  exists s1 s2, s = s1 +:+ s2 /\ Lang a (String c s1) /\ Lang (Re.Star a) s2.
Proof.
  intros H. remember (Re.Star a) as r eqn:Er. remember (String c s) as x eqn:Ex.
  revert s Ex.
  induction H as [| | | | | | a' s1 s2 H1 _ H2 IH2]; intros u Ex; try discriminate.
  injection Er as ->.
  destruct s1 as [|c1 s1]; simpl in Ex.
  - now apply IH2.
  - injection Ex as -> <-. eauto.
Qed.

Lemma derive_spec (r : Re.re) :
  forall c s, Lang (Re.derive c r) s <-> Lang r (String c s).
Proof.
  induction r as [| | p | a IHa b IHb | a IHa b IHb | a IHa]; intros c s;
    cbn [Re.derive].
  - split; intros H; inversion H.
  - split; intros H; inversion H.
  - destruct (p c) eqn:Hp.
    + rewrite lang_eps, lang_cls. split.
      * intros ->. eauto.
      * intros (c' & E & _). congruence.
    + rewrite lang_cls. split; [intros H; now apply lang_void in H |].
      intros (c' & E & Hc'). congruence.
  - assert (Hcat : Lang (Re.Cat (Re.derive c a) b) s ->
                   Lang (Re.Cat a b) (String c s)).
    { rewrite lang_cat. intros (s1 & s2 & -> & H1 & H2).
      apply IHa in H1. change (String c (s1 +:+ s2)) with (String c s1 +:+ s2).
      now constructor. }
    assert (Hinv : Lang (Re.Cat a b) (String c s) ->
                   Lang (Re.Cat (Re.derive c a) b) s \/
                   (Lang a EmptyString /\ Lang (Re.derive c b) s)).
    { rewrite lang_cat. intros ([|c1 s1] & s2 & E & H1 & H2); simpl in E.
      - right. split; [exact H1 |]. apply IHb. now rewrite E.
      - left. injection E as <- ->. apply lang_cat. exists s1, s2.
        split; [reflexivity |]. split; [now apply IHa | exact H2]. }
    destruct (Re.nullable a) eqn:Hn.
    + rewrite lang_alt. split.
      * intros [H | H]; [now apply Hcat |].
        apply IHb in H. apply nullable_spec in Hn.
        change (String c s) with (EmptyString +:+ String c s). now constructor.
      * intros H. apply Hinv in H as [H | [_ H]]; tauto.
    + split; [exact Hcat |].
      intros H. apply Hinv in H as [H | [H _]]; [exact H |].
      apply nullable_spec in H. congruence.
  - rewrite !lang_alt, IHa, IHb. reflexivity.
  - rewrite lang_cat. split.
    + intros (s1 & s2 & -> & H1 & H2). apply IHa in H1.
      change (String c (s1 +:+ s2)) with (String c s1 +:+ s2). now constructor.
    + intros H. apply lang_star_cons in H as (s1 & s2 & -> & H1 & H2).
      exists s1, s2. split; [reflexivity |]. split; [now apply IHa | exact H2].
Qed.

(** The matcher decides the language of the expression. *)
Lemma accepts_spec (s : string) : forall r, Re.accepts r s = true <-> Lang r s.
Proof.
  induction s as [|c s IH]; intros r; simpl.
  - apply nullable_spec.
  - rewrite IH. apply derive_spec.
Qed.

Lemma lang_star_cls (p : ascii -> bool) (s : string) :
  Lang (Re.Star (Re.Cls p)) s <-> all_in p s = true.
Proof.
  split.
  - revert s. induction s as [|c s IH]; intros H; [reflexivity |].
    apply lang_star_cons in H as (s1 & s2 & -> & H1 & H2).
    apply lang_cls in H1 as (c' & E & Hc). injection E as -> ->.
    simpl. rewrite Hc. now apply IH.
  - induction s as [|c s IH]; simpl; [constructor |].
    intros H. apply andb_true_iff in H as [Hc Hs].
    change (String c s) with (String c EmptyString +:+ s).
    constructor; [now constructor | now apply IH].
Qed.

Lemma lang_plus_cls (p : ascii -> bool) (s : string) :
  Lang (Re.plus (Re.Cls p)) s <-> s <> EmptyString /\ all_in p s = true.
Proof.
  unfold Re.plus. rewrite lang_cat. split.
  - intros (s1 & s2 & -> & H1 & H2).
    apply lang_cls in H1 as (c & -> & Hc). apply lang_star_cls in H2.
    simpl. rewrite Hc, H2. split; [discriminate | reflexivity].
  - intros [Hne Hall]. destruct s as [|c s]; [congruence |].
    simpl in Hall. apply andb_true_iff in Hall as [Hc Hs].
    exists (String c EmptyString), s. split; [reflexivity |].
    split; [now constructor | now apply lang_star_cls].
Qed.

Lemma lang_two_cls (p : ascii -> bool) (s : string) :
  Lang (Re.two_or_more (Re.Cls p)) s <->
  (2 <= String.length s)%nat /\ all_in p s = true.
Proof.
  unfold Re.two_or_more. rewrite lang_cat. split.
  - intros (s1 & s2 & -> & H1 & H2).
    apply lang_cls in H1 as (c & -> & Hc). apply lang_plus_cls in H2 as [Hne Hall].
    simpl. rewrite Hc, Hall. split; [| reflexivity].
    destruct s2; [congruence | simpl; lia].
  - intros [Hlen Hall]. destruct s as [|c s]; [simpl in Hlen; lia |].
    simpl in Hall. apply andb_true_iff in Hall as [Hc Hs].
    exists (String c EmptyString), s. split; [reflexivity |].
    split; [now constructor |]. apply lang_plus_cls. split; [| exact Hs].
    destruct s; [simpl in Hlen; lia | discriminate].
Qed.

Lemma lang_char (c : ascii) (s : string) :
  Lang (Re.Cls (fun x => Ascii.eqb x c)) s <-> s = String c EmptyString.
Proof.
  rewrite lang_cls. split.
  - intros (x & -> & Hx). apply Ascii.eqb_eq in Hx. now subst.
  - intros ->. exists c. split; [reflexivity | apply Ascii.eqb_refl].
Qed.

Lemma email_pattern_shape (s : string) : Lang email_pattern s <-> email_shape s.
Proof.
  unfold email_pattern, email_shape, is_at, is_dot. split.
  - intros H.
    apply lang_cat in H as (l & r1 & -> & Hl & H).
    apply lang_cat in H as (a & r2 & -> & Ha & H).
    apply lang_cat in H as (d & r3 & -> & Hd & H).
    apply lang_cat in H as (o & t & -> & Ho & Ht).
    apply lang_char in Ha as ->. apply lang_char in Ho as ->.
    apply lang_plus_cls in Hl as [Hl1 Hl2]. apply lang_plus_cls in Hd as [Hd1 Hd2].
    apply lang_two_cls in Ht as [Ht1 Ht2].
    exists l, d, t. repeat split; assumption.
  - intros (l & d & t & -> & Hl1 & Hl2 & Hd1 & Hd2 & Ht1 & Ht2).
    constructor; [now apply lang_plus_cls |].
    constructor; [now apply lang_char |].
    constructor; [now apply lang_plus_cls |].
    constructor; [now apply lang_char |].
    now apply lang_two_cls.
Qed.

Lemma chop_newline_cons (c c' : ascii) (s : string) :
  Re.chop_newline (String c (String c' s))
  = match Re.chop_newline (String c' s) with
    | Some t => Some (String c t)
    | None => None
    end.
Proof. reflexivity. Qed.

Lemma chop_newline_spec (s t : string) :
  Re.chop_newline s = Some t <-> s = t +:+ line_feed.
Proof.
  unfold line_feed. revert t. induction s as [|c s IH]; intros t.
  - simpl. split; [discriminate | destruct t; discriminate].
  - destruct t as [|x t].
    + change (EmptyString +:+ String Re.newline EmptyString)
        with (String Re.newline EmptyString).
      destruct s as [|c' s'].
      * cbn [Re.chop_newline].
        destruct (Ascii.eqb_spec c Re.newline) as [->|Hne];
          split; intros E; reflexivity || discriminate || congruence.
      * rewrite chop_newline_cons.
        destruct (Re.chop_newline (String c' s')); split; intros E; discriminate.
    + change (String x t +:+ String Re.newline EmptyString)
        with (String x (t +:+ String Re.newline EmptyString)).
      destruct s as [|c' s'].
      * cbn [Re.chop_newline].
        destruct (Ascii.eqb c Re.newline); split; intros E; try discriminate;
          destruct t; simpl in E; discriminate.
      * rewrite chop_newline_cons. specialize (IH t).
        destruct (Re.chop_newline (String c' s')) as [t'|].
        -- split.
           ++ intros [= -> ->]. f_equal. now apply IH.
           ++ intros [= -> E]. apply IH in E. now injection E as ->.
        -- split; [discriminate |]. intros [= -> E]. apply IH in E. discriminate.
Qed.

(** An address is accepted exactly when it is of the form
    local@domain.tld, or is such a text followed by one line feed. *)
Theorem validate_email_shape (email : string) :
  validate_email email = true <->
  email_shape email \/
  exists body, email = body +:+ line_feed /\ email_shape body.
Proof.
  unfold validate_email, Re.match_anchored.
  rewrite orb_true_iff, accepts_spec, email_pattern_shape. split.
  - intros [H | H]; [now left | right].
    destruct (Re.chop_newline email) as [body|] eqn:E; [| discriminate].
    apply chop_newline_spec in E. exists body. split; [exact E |].
    now apply email_pattern_shape, accepts_spec.
  - intros [H | (body & E & H)]; [now left | right].
    apply chop_newline_spec in E. rewrite E.
    now apply accepts_spec, email_pattern_shape.
Qed.

(** An accepted address stays accepted with a line feed after it: the
    end anchor also holds before a final line feed. *)
Theorem validate_email_line_feed (email : string) :
  email_shape email -> validate_email (email +:+ line_feed) = true.
Proof.
  intros Hshape. unfold validate_email, Re.match_anchored.
  assert (E : Re.chop_newline (email +:+ line_feed) = Some email)
    by now apply chop_newline_spec.
  rewrite E. apply orb_true_iff. right.
  now apply accepts_spec, email_pattern_shape.
Qed.

Lemma validate_email_line_feed_witness :
  email_shape "a@b.co" /\ validate_email ("a@b.co" +:+ line_feed) = true.
Proof.
  assert (H : email_shape "a@b.co").
  { exists "a", "b", "co". repeat split; try reflexivity; try discriminate. }
  split; [exact H | exact (validate_email_line_feed "a@b.co" H)].
Defined.

Example email_accepted : validate_email "john.doe+x@mail.example.com" = true.
Proof. vm_compute. reflexivity. Qed.

Example email_one_letter_tld : validate_email "a@b.c" = false.
Proof. vm_compute. reflexivity. Qed.

Example email_two_ats : validate_email "a@b@c.com" = false.
Proof. vm_compute. reflexivity. Qed.

Example email_double_dot : validate_email "a@b..com" = true.
Proof. vm_compute. reflexivity. Qed.

(** ** Installing the middleware *)

Section SetupFacts.

Context {S : Type} `{CounterStore S}.

Variable from_url : string -> outcome S.
Variable ping : S -> outcome unit * S.

Lemma connect_some (redis_url : option string) (client : S) :
  connect from_url ping redis_url = Some client ->
  exists url c0, redis_url = Some url /\ url <> EmptyString /\
                 from_url url = Ret c0 /\ ping c0 = (Ret tt, client).
Proof.
  unfold connect. destruct redis_url as [url|]; [| discriminate].
  destruct url as [|x url]; [discriminate |]. cbn [PyStr.truthy].
  destruct (from_url _) as [c0|e] eqn:Ef; [| discriminate].
  destruct (ping c0) as [[[]|e] c1] eqn:Ep; [| discriminate].
  intros [= <-]. exists (String x url), c0. repeat split; [discriminate | assumption..].
Qed.

End SetupFacts.

(** Without a URL (none, or an empty one), or when building the client
    or the first ping raises, the middleware is installed without a
    client; the pipeline then answers every request without a single
    store call, and its rate check admits. *)
Theorem setup_without_store {S : Type} `{CounterStore S}
  (from_url : string -> outcome S) (ping : S -> outcome unit * S)
  (app : list (middleware S)) (redis_url : option string) :
  (redis_url = None \/ redis_url = Some EmptyString \/
   (exists url e, redis_url = Some url /\ from_url url = Raise e) \/
   (exists url c0 e c1, redis_url = Some url /\ from_url url = Ret c0 /\
                        ping c0 = (Raise e, c1))) ->
  setup_security_middleware from_url ping app redis_url
  = SecurityMiddleware None :: app /\
  forall request call_next clk,
    _check_rate_limit request (connect from_url ping redis_url) = (Ret true, None, []) /\
    exists response,
      dispatch request call_next clk (connect from_url ping redis_url)
      = (Ret response, None, []).
Proof.
  intros Hno.
  assert (E : connect from_url ping redis_url = None).
  { unfold connect.
    destruct Hno as [-> | [-> | [(url & e & -> & Ef) | (url & c0 & e & c1 & -> & Ef & Ep)]]];
      try reflexivity; destruct (PyStr.truthy url); try reflexivity;
      rewrite Ef; [reflexivity |]. now rewrite Ep. }
  unfold setup_security_middleware. rewrite E. split; [reflexivity |].
  intros request call_next clk. split; [reflexivity |].
  unfold dispatch, try_except, bind, lift.
  change (_check_rate_limit request None) with (Ret true, @None S, @nil call).
  cbn [negb]. destruct (_validate_request request); cbn [negb]; [| eexists; reflexivity].
  destruct (call_next request) as [response|e]; eexists; reflexivity.
Qed.

Lemma setup_without_store_witness :
  setup_security_middleware (fun _ => Ret Unreachable)
    (fun c => (Raise ConnectionError, c)) [OtherMiddleware "cors"] (Some "redis://cache:6379")
  = [SecurityMiddleware None; OtherMiddleware "cors"].
Proof.
  apply (setup_without_store (fun _ => Ret Unreachable)
           (fun c => (Raise ConnectionError, c))).
  right. right. right. exists "redis://cache:6379", Unreachable, ConnectionError, Unreachable.
  repeat split.
Defined.

Example install_without_variable :
  install (fun _ => Ret (∅ : gmap string entry)) (fun c => (Ret tt, c)) true ∅ []
  = [SecurityMiddleware None].
Proof. reflexivity. Qed.

Example install_with_store :
  install (fun _ => Ret (∅ : gmap string entry)) (fun c => (Ret tt, c)) true
    {[ "REDIS_URL" := "redis://cache:6379" ]} []
  = [SecurityMiddleware (Some ∅)].
Proof. vm_compute. reflexivity. Qed.

Example install_without_module :
  install (fun _ => Ret (∅ : gmap string entry)) (fun c => (Ret tt, c)) false
    {[ "REDIS_URL" := "redis://cache:6379" ]} [OtherMiddleware "cors"]
  = [OtherMiddleware "cors"].
Proof. reflexivity. Qed.

(** ** More on the header policy *)

Lemma entries_remove_other (k k' : string) (hs : list header) :
  k <> k' -> entries_named k (remove_key k' hs) = entries_named k hs.
Proof.
  intros Hne. unfold entries_named. induction hs as [|h r IH]; simpl; [reflexivity |].
  destruct (String.eqb_spec (fst h) k') as [E|E]; simpl.
  - destruct (String.eqb_spec (fst h) k); [congruence | exact IH].
  - now rewrite IH.
Qed.

Lemma entries_set_other (k k' v : string) (hs : list header) :
  k <> k' -> entries_named k (set_raw k' v hs) = entries_named k hs.
Proof.
  intros Hne. unfold entries_named. induction hs as [|h r IH]; simpl.
  - destruct (String.eqb_spec k' k); [congruence | reflexivity].
  - destruct (String.eqb_spec (fst h) k') as [E|E]; simpl.
    + destruct (String.eqb_spec k' k); [congruence |].
      destruct (String.eqb_spec (fst h) k); [congruence |].
      now apply entries_remove_other.
    + now rewrite IH.
Qed.

Lemma entries_set_all (k : string) (kvs : list header) :
  ~ In k (map lower_key kvs) ->
  forall hs, entries_named k (set_all kvs hs) = entries_named k hs.
Proof.
  unfold set_all. induction kvs as [|kv kvs IH]; intros Hk hs; simpl; [reflexivity |].
  rewrite IH by (intros Hin; apply Hk; now right).
  apply entries_set_other. intros ->. apply Hk. now left.
Qed.

(** The header policy leaves status, body and every header outside the
    policy alone: the entries of any other name, repeated ones too, are
    the same, in the same order, before and after. *)
Theorem add_security_headers_keeps_others (response : Response) (name : string) :
  ~ In (PyStr.lower name) (map lower_key security_headers) ->
  status_code (_add_security_headers response) = status_code response /\
  resp_body (_add_security_headers response) = resp_body response /\
  entries_named (PyStr.lower name) (resp_headers (_add_security_headers response))
  = entries_named (PyStr.lower name) (resp_headers response) /\
  headers_get name (resp_headers (_add_security_headers response))
  = headers_get name (resp_headers response).
Proof.
  intros Hk. split; [reflexivity |]. split; [reflexivity |].
  assert (E : entries_named (PyStr.lower name) (resp_headers (_add_security_headers response))
              = entries_named (PyStr.lower name) (resp_headers response))
    by now apply entries_set_all.
  split; [exact E |].
  assert (Hget : forall hs, headers_get name hs
                   = match entries_named (PyStr.lower name) hs with
                     | h :: _ => Some (snd h)
                     | [] => None
                     end).
  { intros hs. unfold headers_get, entries_named.
    induction hs as [|h r IH]; simpl; [reflexivity |].
    destruct (String.eqb (fst h) (PyStr.lower name)); [reflexivity | exact IH]. }
  now rewrite !Hget, E.
Qed.

Lemma add_security_headers_keeps_others_witness :
  entries_named "set-cookie"
    (resp_headers (_add_security_headers
       {| status_code := 200;
          resp_headers := [("set-cookie", "a=1"); ("x-frame-options", "SAMEORIGIN");
                           ("set-cookie", "b=2")];
          resp_body := BRaw "ok" |}))
  = [("set-cookie", "a=1"); ("set-cookie", "b=2")].
Proof.
  refine (proj1 (proj2 (proj2 (add_security_headers_keeps_others _ "Set-Cookie" _)))).
  simpl. intuition discriminate.
Defined.

(** ** More on the client identity *)

Lemma split_head_no_sep (sep : ascii) (s : string) :
  occurs sep (PyStr.split_head sep s) = false.
Proof.
  induction s as [|c s IH]; simpl; [reflexivity |].
  destruct (Ascii.eqb_spec c sep); [reflexivity |].
  simpl. rewrite IH. destruct (Ascii.eqb_spec c sep); [contradiction | reflexivity].
Qed.

(** An identity taken from X-Forwarded-For holds no comma and neither
    starts nor ends with white space. *)
Theorem forwarded_identity_trimmed (request : Request) (v : string) :
  headers_get "X-Forwarded-For" (req_headers request) = Some v ->
  v <> EmptyString ->
  occurs ","%char (_get_client_ip request) = false /\
  starts_space (_get_client_ip request) = false /\
  ends_space (_get_client_ip request) = false.
Proof.
  intros Hv Hne. unfold _get_client_ip. rewrite Hv.
  destruct v as [|x v]; [congruence |]. cbn [PyStr.truthy].
  destruct (strip_spec (PyStr.split_head ","%char (String x v))) as (_ & Hs & He).
  split; [| split; assumption].
  eapply subseq_occurs; [apply strip_subseq | apply split_head_no_sep].
Qed.

Lemma forwarded_identity_trimmed_witness :
  headers_get "X-Forwarded-For" (req_headers Sample.forwarded) = Some " 1.2.3.4 , 5.6.7.8" /\
  occurs ","%char (_get_client_ip Sample.forwarded) = false.
Proof.
  split; [reflexivity |].
  apply (forwarded_identity_trimmed Sample.forwarded " 1.2.3.4 , 5.6.7.8");
    [reflexivity | discriminate].
Defined.

(** ** More on request validation *)

Lemma validate_readable_scan (request : Request) :
  length_readable request = true -> scan_patterns request = false ->
  _validate_request request = false.
Proof.
  unfold length_readable, _validate_request, validate_body. intros Hr ->.
  destruct (headers_get _ _) as [v|]; [| reflexivity].
  destruct (PyStr.truthy v); [| reflexivity].
  destruct (PyStr.int v) as [n|]; [| discriminate].
  now destruct (max_content_length <? n).
Qed.

(** The scans ignore letter case: a request with a readable length
    header is rejected when its URL, or one of its "name:value" header
    pairs, holds a pattern in any mix of upper and lower case. *)
Theorem pattern_any_case (request : Request) (v : string) :
  length_readable request = true ->
  In (PyStr.lower v) suspicious_patterns ->
  Substring v (req_url request) \/
  (exists h, In h (req_headers request) /\ Substring v (fst h +:+ ":" +:+ snd h)) ->
  _validate_request request = false.
Proof.
  intros Hr Hp Hs. apply validate_readable_scan; [exact Hr |].
  apply scan_patterns_false.
  destruct Hs as [Hs | (h & Hin & Hs)].
  - left. apply suspicious_spec. exists (PyStr.lower v).
    split; [exact Hp | now apply substring_lower].
  - right. apply List.Exists_exists. exists h. split; [exact Hin |].
    apply suspicious_spec. exists (PyStr.lower v).
    split; [exact Hp | now apply substring_lower].
Qed.

Lemma pattern_any_case_witness :
  Substring "<SCRipt" "http://h/q?x=<SCRipt>" /\
  _validate_request (Sample.get "http://h/q?x=<SCRipt>" "/q" []) = false.
Proof.
  assert (Hs : Substring "<SCRipt" "http://h/q?x=<SCRipt>")
    by (exists "http://h/q?x=", ">"; reflexivity).
  split; [exact Hs |].
  apply (pattern_any_case (Sample.get "http://h/q?x=<SCRipt>" "/q" []) "<SCRipt");
    [reflexivity | simpl; tauto | now left].
Defined.

(** ** More on the rate limiter *)

Lemma append_cancel_r (a b t : string) : a +:+ t = b +:+ t -> a = b.
Proof.
  revert b. induction a as [|x a IH]; intros [|y b] E; simpl in E.
  - reflexivity.
  - apply (f_equal String.length) in E. simpl in E. rewrite length_append in E. lia.
  - apply (f_equal String.length) in E. simpl in E. rewrite length_append in E. lia.
  - injection E as -> E. f_equal. now apply IH.
Qed.

(** Texts that agree end with the same character. *)
Lemma append_last (a b : string) (x y : ascii) :
  a +:+ String x EmptyString = b +:+ String y EmptyString -> a = b /\ x = y.
Proof.
  revert b. induction a as [|c a IH]; intros [|d b] E; simpl in E.
  - injection E as ->. auto.
  - injection E as -> E. destruct b; discriminate.
  - injection E as -> E. destruct a; discriminate.
  - injection E as -> E. apply IH in E as [-> ->]. auto.
Qed.

Lemma limit_name_last (t : LimitClass) :
  exists p, limit_name t = p +:+ String (match t with
                                         | Default => "t"
                                         | Auth => "h"
                                         | Api => "i"
                                         end)%char EmptyString.
Proof.
  destruct t; [exists "defaul" | exists "aut" | exists "ap"]; reflexivity.
Qed.

(** Two requests share a counter only when they have the same identity
    and the same limit class. *)
Theorem rate_key_injective (ip1 ip2 : string) (t1 t2 : LimitClass) :
  rate_key ip1 t1 = rate_key ip2 t2 -> ip1 = ip2 /\ t1 = t2.
Proof.
  unfold rate_key. intros E.
  apply (String.app_inj "rate_limit:") in E.
  assert (Ht : t1 = t2).
  { destruct (limit_name_last t1) as [p1 E1], (limit_name_last t2) as [p2 E2].
    rewrite E1, E2, <- !append_assoc in E.
    apply append_last in E as [_ E]. destruct t1, t2; reflexivity || discriminate. }
  subst t2. split; [| reflexivity].
  rewrite <- !append_assoc in E. apply append_cancel_r in E.
  now apply append_cancel_r in E.
Qed.

Example rate_key_classes :
  rate_key "10.0.0.9" Auth <> rate_key "10.0.0.9" Api.
Proof. discriminate. Qed.

Lemma rate_key_injective_witness :
  rate_key ("10.0." +:+ "0.9") Auth = rate_key "10.0.0.9" Auth /\
  "10.0." +:+ "0.9" = "10.0.0.9" /\ Auth = Auth.
Proof.
  split; [reflexivity |].
  exact (rate_key_injective ("10.0." +:+ "0.9") "10.0.0.9" Auth Auth eq_refl).
Defined.

(** The rate check on the answering store, case by case. *)
Lemma rate_check_mem (request : Request) (m : gmap string entry) :
  _check_rate_limit request (Some m)
  = match m !! key_of request with
    | None =>
        (Ret true,
         Some (<[key_of request := (VInt 1, Some (window (limits_of request)))]> m),
         [get_call (key_of request);
          setex_call (key_of request) (window (limits_of request)) (VInt 1)])
    | Some (VInt n, ttl) =>
        if requests (limits_of request) <=? n
        then (Ret false, Some m, [get_call (key_of request)])
        else if (int64_min <=? n) && (n <? int64_max)
             then (Ret true, Some (<[key_of request := (VInt (n + 1), ttl)]> m),
                   [get_call (key_of request); incr_call (key_of request)])
             else (Ret true, Some m,
                   [get_call (key_of request);
                    {| c_op := OpIncr; c_key := key_of request; c_failed := true |}])
    | Some (VLog _, _) => (Ret true, Some m, [get_call (key_of request)])
    end.
Proof.
  destruct (m !! key_of request) as [[[n|r] ttl]|] eqn:E.
  - destruct (requests (limits_of request) <=? n) eqn:Hn.
    + apply Z.leb_le in Hn. exact (rate_check_full request m n ttl E Hn).
    + destruct ((int64_min <=? n) && (n <? int64_max)) eqn:Hr.
      * apply andb_true_iff in Hr as [Hlo _]. apply Z.leb_le in Hlo.
        apply Z.leb_gt in Hn. now apply rate_check_below.
      * unfold _check_rate_limit, rate_limit_body, bind, try_except, has_client, ret,
          lift, redis_get, redis_setex, redis_incr, on_client.
        change (rate_key (_get_client_ip request) (limit_type (req_path request)))
          with (key_of request).
        change (rate_limits (limit_type (req_path request))) with (limits_of request).
        cbn [store_get store_setex store_incr redis_mem negb].
        unfold mem_get, mem_incr. rewrite E. cbn [int_of_value fst].
        rewrite Hn, E, Hr. reflexivity.
  - unfold _check_rate_limit, rate_limit_body, bind, try_except, has_client, ret,
      lift, redis_get, redis_setex, redis_incr, on_client.
    change (rate_key (_get_client_ip request) (limit_type (req_path request)))
      with (key_of request).
    cbn [store_get store_setex store_incr redis_mem negb].
    unfold mem_get. rewrite E. reflexivity.
  - now apply rate_check_first.
Qed.

(** A rate check leaves every entry but its own as it was: the counters
    of other identities and classes, and the audit records. *)
Theorem rate_check_other_keys (request : Request) (m : gmap string entry) (k : string) :
  k <> key_of request ->
  exists m', snd (fst (_check_rate_limit request (Some m))) = Some m' /\
             m' !! k = m !! k.
Proof.
  intros Hk. rewrite rate_check_mem.
  destruct (m !! key_of request) as [[[n|r] ttl]|].
  - destruct (requests (limits_of request) <=? n); [eauto |].
    destruct ((int64_min <=? n) && (n <? int64_max)); [| eauto].
    eexists. split; [reflexivity |]. now apply lookup_insert_ne.
  - eauto.
  - eexists. split; [reflexivity |]. now apply lookup_insert_ne.
Qed.

Lemma rate_check_other_keys_witness :
  "rate_limit:10.0.0.9:api" <> key_of Sample.login /\
  exists m', snd (fst (_check_rate_limit Sample.login
                         (Sample.full "rate_limit:10.0.0.9:api" 7 3600))) = Some m' /\
             m' !! "rate_limit:10.0.0.9:api"
             = ({[ "rate_limit:10.0.0.9:api" := (VInt 7, Some 3600) ]}
                  : gmap string entry) !! "rate_limit:10.0.0.9:api".
Proof.
  assert (Hk : "rate_limit:10.0.0.9:api" <> key_of Sample.login) by discriminate.
  split; [exact Hk |].
  exact (rate_check_other_keys Sample.login _ "rate_limit:10.0.0.9:api" Hk).
Defined.

(** Once the count stands at or above the maximum, every further check
    is rejected and none of them writes: the window stays closed for as
    long as the entry lives. *)
Theorem window_stays_closed (request : Request) (m : gmap string entry)
  (j : Z) (ttl : option Z) (n : nat) :
  m !! key_of request = Some (VInt j, ttl) ->
  requests (limits_of request) <= j ->
  checks n request (Some m) = (List.repeat false n, Some m).
Proof.
  intros Hm Hj. induction n as [|n IH]; [reflexivity |].
  rewrite checks_step, (rate_check_full request m j ttl Hm Hj), IH. reflexivity.
Qed.

Lemma window_stays_closed_witness :
  checks 3 Sample.login (Sample.full "rate_limit:10.0.0.9:auth" 5 60)
  = ([false; false; false], Sample.full "rate_limit:10.0.0.9:auth" 5 60).
Proof.
  apply (window_stays_closed Sample.login _ 5 (Some 60) 3).
  - vm_compute. reflexivity.
  - simpl. lia.
Defined.

(** When the entry under the counter key holds text that is no integer,
    every check admits and leaves the store as it is: the limit is off
    until the entry goes away. *)
Theorem unreadable_count_admits (request : Request) (m : gmap string entry)
  (r : AuditRecord) (ttl : option Z) (n : nat) :
  m !! key_of request = Some (VLog r, ttl) ->
  checks n request (Some m) = (List.repeat true n, Some m).
Proof.
  intros Hm. induction n as [|n IH]; [reflexivity |].
  rewrite checks_step, rate_check_mem, Hm, IH. reflexivity.
Qed.

Lemma window_burst_witness :
  checks 6 Sample.login Sample.empty_store
  = ([true; true; true; true; true; false],
     Sample.full "rate_limit:10.0.0.9:auth" 5 60).
Proof.
  pose proof (window_burst Sample.login ∅ (lookup_empty _)) as Hb.
  vm_compute in Hb |- *. exact Hb.
Defined.

Lemma unreadable_count_admits_witness :
  let r := audit_record Sample.plain bad_request_reply 0 Sample.clock in
  checks 2 Sample.login (Some {[ "rate_limit:10.0.0.9:auth" := (VLog r, Some 60) ]})
  = ([true; true], Some {[ "rate_limit:10.0.0.9:auth" := (VLog r, Some 60) ]}).
Proof.
  intros r.
  apply (unreadable_count_admits Sample.login _ r (Some 60) 2).
  vm_compute. reflexivity.
Defined.

(** ** Audit logging *)

Lemma log_key_not_counter (seconds : Z) (ip : string) (t : LimitClass) :
  log_key seconds <> rate_key ip t.
Proof. unfold log_key, rate_key. simpl. discriminate. Qed.

(** Logging never raises. Without a client it makes no store call; with
    one it makes exactly one, a write of the record under the key of the
    current second with an hour to live, and a failure of that write is
    swallowed. *)
Theorem log_request_best_effort {S : Type} `{CounterStore S}
  (request : Request) (response : Response) (duration : Z) (clk : Clock)
  (c : option S) :
  exists c' t,
    _log_request request response duration clk c = (Ret tt, c', t) /\
    (c = None -> c' = None /\ t = []) /\
    (forall s, c = Some s ->
       exists failed,
         t = [{| c_op := OpSetex 3600 (VLog (audit_record request response duration clk));
                 c_key := log_key (t_key clk / 1000);
                 c_failed := failed |}]).
Proof.
  unfold _log_request, try_except, bind, has_client, ret, redis_setex, on_client.
  fold (audit_record request response duration clk).
  destruct c as [s|].
  - destruct (store_setex _ _ _ s) as [[[]|e] s1]; eexists _, _;
      (split; [reflexivity |]); (split; [discriminate |]);
      intros s0 _; eexists; reflexivity.
  - eexists _, _. split; [reflexivity |]. split; [auto | discriminate].
Qed.

Lemma log_request_best_effort_witness :
  _log_request Sample.plain bad_request_reply 12 Sample.clock (Some Unreachable)
  = (Ret tt, Some Unreachable,
     [{| c_op := OpSetex 3600 (VLog (audit_record Sample.plain bad_request_reply 12 Sample.clock));
         c_key := "request_log:1"; c_failed := true |}]).
Proof.
  destruct (log_request_best_effort Sample.plain bad_request_reply 12 Sample.clock
              (Some Unreachable)) as (c' & t & E & _ & _).
  reflexivity.
Defined.

Lemma log_request_mem (request : Request) (response : Response) (duration : Z)
  (clk : Clock) (m : gmap string entry) :
  _log_request request response duration clk (Some m)
  = (Ret tt,
     Some (<[log_key (t_key clk / 1000) :=
               (VLog (audit_record request response duration clk), Some 3600)]> m),
     [setex_call (log_key (t_key clk / 1000)) 3600
        (VLog (audit_record request response duration clk))]).
Proof. reflexivity. Qed.

(** On the answering store the record is kept under request_log:<second>
    for 3600 seconds, and no rate counter is touched. *)
Theorem log_request_keeps_counters (request : Request) (response : Response)
  (duration : Z) (clk : Clock) (m : gmap string entry) :
  exists m',
    snd (fst (_log_request request response duration clk (Some m))) = Some m' /\
    m' !! log_key (t_key clk / 1000)
    = Some (VLog (audit_record request response duration clk), Some 3600) /\
    forall ip t, m' !! rate_key ip t = m !! rate_key ip t.
Proof.
  rewrite log_request_mem. eexists. split; [reflexivity |]. split.
  - apply lookup_insert_eq.
  - intros ip t. apply lookup_insert_ne, log_key_not_counter.
Qed.

(** Two requests logged within the same second share the key: the later
    record replaces the earlier one. *)
Theorem log_same_second (r1 r2 : Request) (p1 p2 : Response) (d1 d2 : Z)
  (clk1 clk2 : Clock) (m : gmap string entry) :
  t_key clk1 / 1000 = t_key clk2 / 1000 ->
  forall m1, snd (fst (_log_request r1 p1 d1 clk1 (Some m))) = Some m1 ->
  snd (fst (_log_request r2 p2 d2 clk2 (Some m1)))
  = snd (fst (_log_request r2 p2 d2 clk2 (Some m))).
Proof.
  intros Hsec m1. rewrite !log_request_mem. cbn [fst snd]. intros [= <-].
  rewrite Hsec. now rewrite insert_insert_eq.
Qed.

Lemma log_same_second_witness :
  let clk2 := {| t_start := 1500; t_done := 1600; t_stamp := 1700; t_key := 1900 |} in
  t_key Sample.clock / 1000 = t_key clk2 / 1000 /\
  forall m1,
    snd (fst (_log_request Sample.plain bad_request_reply 12 Sample.clock Sample.empty_store))
    = Some m1 ->
    snd (fst (_log_request Sample.login rate_limit_reply 100 clk2 (Some m1)))
    = snd (fst (_log_request Sample.login rate_limit_reply 100 clk2 Sample.empty_store)).
Proof.
  intros clk2. split; [reflexivity |].
  apply (log_same_second Sample.plain Sample.login bad_request_reply rate_limit_reply
           12 100 Sample.clock clk2 ∅).
  reflexivity.
Defined.

(** ** More on the pipeline *)

(** A request answered by the pipeline itself (429, 400, or 500 after the
    handler raised) leaves the store as the rate check left it: its store
    calls are those of the rate check, all on the request's counter key,
    so no audit record is written for it. *)
Theorem short_circuit_not_logged {S : Type} `{CounterStore S}
  (request : Request) (call_next : Request -> outcome Response) (clk : Clock)
  (c : option S) :
  (fst (fst (_check_rate_limit request c)) = Ret false \/
   _validate_request request = false \/
   (exists e, call_next request = Raise e)) ->
  snd (fst (dispatch request call_next clk c)) = snd (fst (_check_rate_limit request c)) /\
  snd (dispatch request call_next clk c) = snd (_check_rate_limit request c) /\
  Forall (fun e => c_key e = key_of request /\ forall seconds, c_key e <> log_key seconds)
    (snd (dispatch request call_next clk c)).
Proof.
  intros Hcut.
  assert (Hd : exists response,
             dispatch request call_next clk c
             = (Ret response, snd (fst (_check_rate_limit request c)),
                snd (_check_rate_limit request c))).
  { destruct (_check_rate_limit request c) as [[[[|]|e] c1] t1] eqn:E; cbn [fst snd] in *.
    - destruct (_validate_request request) eqn:Hv.
      + destruct Hcut as [Hcut | [Hcut | [e He]]]; try discriminate.
        eexists. now apply dispatch_handler_raises with (e := e).
      + eexists. now apply dispatch_invalid.
    - eexists. now apply dispatch_rate_limited.
    - eexists. unfold dispatch, try_except, bind. rewrite E. cbn.
      now rewrite app_nil_r. }
  destruct Hd as [response Hd]. rewrite Hd. cbn [fst snd].
  split; [reflexivity |]. split; [reflexivity |].
  eapply Forall_impl; [apply rate_check_key |].
  intros e He. cbn beta in He. split; [exact He |].
  intros seconds. rewrite He. intros Heq. symmetry in Heq.
  now apply log_key_not_counter in Heq.
Qed.

Lemma short_circuit_not_logged_witness :
  _validate_request Sample.script = false /\
  snd (dispatch Sample.script Sample.handler Sample.clock Sample.empty_store)
  = snd (_check_rate_limit Sample.script Sample.empty_store).
Proof.
  split; [reflexivity |].
  apply (short_circuit_not_logged Sample.script Sample.handler Sample.clock
           Sample.empty_store).
  right. left. reflexivity.
Defined.

(** An admitted request gets the handler's response with the policy
    applied, whatever the store does while the request is logged: same
    status, same body, the ten policy headers set, every other header
    kept. *)
Theorem admitted_response {S : Type} `{CounterStore S}
  (request : Request) (call_next : Request -> outcome Response) (clk : Clock)
  (c : option S) (response : Response) :
  fst (fst (_check_rate_limit request c)) = Ret true ->
  _validate_request request = true ->
  call_next request = Ret response ->
  exists sent,
    returned (dispatch request call_next clk c) = Some sent /\
    status_code sent = status_code response /\
    resp_body sent = resp_body response /\
    (forall kv, In kv security_headers ->
       headers_get (fst kv) (resp_headers sent) = Some (snd kv)) /\
    (forall name, ~ In (PyStr.lower name) (map lower_key security_headers) ->
       entries_named (PyStr.lower name) (resp_headers sent)
       = entries_named (PyStr.lower name) (resp_headers response)).
Proof.
  intros Hc Hv Hn.
  destruct (_check_rate_limit request c) as [[o c1] t1] eqn:E.
  cbn [fst] in Hc. subst o.
  exists (_add_security_headers response).
  split; [now apply dispatch_admitted with (c1 := c1) (t1 := t1) |].
  split; [reflexivity |]. split; [reflexivity |]. split.
  - intros kv Hin. apply once_get. now apply security_headers_applied.
  - intros name Hname. now apply entries_set_all.
Qed.

Lemma admitted_response_witness :
  exists sent,
    returned (dispatch Sample.plain Sample.handler Sample.clock (Some Unreachable))
    = Some sent /\
    status_code sent = 200 /\
    headers_get "X-Frame-Options" (resp_headers sent) = Some "DENY" /\
    headers_get "Content-Length" (resp_headers sent) = Some "2".
Proof.
  assert (Hc : fst (fst (_check_rate_limit Sample.plain (Some Unreachable))) = Ret true)
    by reflexivity.
  destruct (admitted_response Sample.plain Sample.handler Sample.clock (Some Unreachable)
              {| status_code := 200;
                 resp_headers := [("content-length", "2"); ("x-frame-options", "SAMEORIGIN")];
                 resp_body := BRaw "ok" |} Hc eq_refl eq_refl)
    as (sent & Hr & Hs & _ & Hp & Ho).
  exists sent. split; [exact Hr |]. split; [exact Hs |]. split.
  - apply (Hp ("X-Frame-Options", "DENY")). simpl. tauto.
  - unfold headers_get.
    change (PyStr.lower "Content-Length") with "content-length".
    assert (E : entries_named "content-length" (resp_headers sent)
                = [("content-length", "2")]).
    { apply (Ho "Content-Length"). simpl. intuition discriminate. }
    unfold entries_named in E. revert E.
    generalize (resp_headers sent). intros hs. induction hs as [|h r IH]; simpl.
    + discriminate.
    + destruct (String.eqb (fst h) "content-length"); [now intros [= ->] | exact IH].
Defined.

(** ** Backend/main.py: allowed origins *)

Lemma split_no_sep (sep : ascii) (s : string) :
  Forall (fun piece => occurs sep piece = false) (split sep s).
Proof.
  induction s as [|c s IH]; simpl; [repeat constructor |].
  destruct (Ascii.eqb_spec c sep) as [E|E]; [now constructor |].
  destruct (split sep s) as [|piece rest]; [repeat constructor; simpl |].
  - destruct (Ascii.eqb_spec c sep); [contradiction | reflexivity].
  - inversion IH as [|? ? Hp Hr]; subst. constructor; [| exact Hr].
    simpl. rewrite Hp. destruct (Ascii.eqb_spec c sep); [contradiction | reflexivity].
Qed.

Lemma split_nonempty (sep : ascii) (s : string) : split sep s <> [].
Proof.
  destruct s as [|c s]; simpl; [discriminate |].
  destruct (Ascii.eqb c sep); [discriminate |].
  destruct (split sep s); discriminate.
Qed.

Lemma join_split (sep : ascii) (s : string) : join sep (split sep s) = s.
Proof.
  induction s as [|c s IH]; [reflexivity |]. cbn [split].
  pose proof (split_nonempty sep s) as Hne.
  destruct (split sep s) as [|piece rest] eqn:E; [congruence |].
  destruct (Ascii.eqb_spec c sep) as [->|Hc].
  - rewrite <- IH. reflexivity.
  - rewrite <- IH. destruct rest; reflexivity.
Qed.

Lemma piece_split (sep : ascii) (p : string) :
  forall q x y,
    occurs sep p = false -> occurs sep q = false ->
    (x = EmptyString \/ exists x', x = String sep x') ->
    (y = EmptyString \/ exists y', y = String sep y') ->
    p +:+ x = q +:+ y -> p = q /\ x = y.
Proof.
  induction p as [|c p IH]; intros [|d q] x y Hp Hq Hx Hy E; simpl in *.
  - auto.
  - apply orb_false_iff in Hq as [Hd _]. apply Ascii.eqb_neq in Hd.
    destruct Hx as [-> | [x' ->]]; [discriminate | congruence].
  - apply orb_false_iff in Hp as [Hc _]. apply Ascii.eqb_neq in Hc.
    destruct Hy as [-> | [y' ->]]; [discriminate | congruence].
  - apply orb_false_iff in Hp as [_ Hp]. apply orb_false_iff in Hq as [_ Hq].
    injection E as -> E. destruct (IH q x y Hp Hq Hx Hy E) as [-> ->]. auto.
Qed.

(** The pieces are determined by the text: lists of texts without the
    separator that join to the same text are the same. *)
Lemma join_unique (sep : ascii) (ps : list string) :
  forall qs,
    ps <> [] -> qs <> [] ->
    Forall (fun piece => occurs sep piece = false) ps ->
    Forall (fun piece => occurs sep piece = false) qs ->
    join sep ps = join sep qs -> ps = qs.
Proof.
  induction ps as [|p ps IH]; intros [|q qs] Hp0 Hq0 Hp Hq E; try congruence.
  inversion Hp as [|? ? Hp1 Hp2]; inversion Hq as [|? ? Hq1 Hq2]; subst.
  assert (Hshape : forall r rest,
             join sep (r :: rest)
             = r +:+ match rest with [] => EmptyString | _ => String sep (join sep rest) end).
  { intros r [|r' rest]; cbn [join]; [now rewrite append_empty_r | reflexivity]. }
  rewrite !Hshape in E.
  apply (piece_split sep) in E as [-> E]; try assumption.
  - destruct ps as [|p2 ps], qs as [|q2 qs]; try discriminate; [reflexivity |].
    injection E as E. f_equal. apply IH; try assumption; discriminate.
  - destruct ps; eauto.
  - destruct qs; eauto.
Qed.

(** In production the origins handed to the CORS layer are the pieces of
    the configured ALLOWED_ORIGINS value between its commas (its default
    when unset), each with the white space around it removed, in their
    order and without those that are empty then; so each origin is
    non-empty, holds no comma and has no white space at either end. *)
Theorem allowed_origins_production (environ : gmap string string) :
  environ !! "ENVIRONMENT" = Some "production" ->
  exists pieces,
    join ","%char pieces
    = getenv environ "ALLOWED_ORIGINS" "http://localhost:3000,https://localhost:3000" /\
    Forall (fun piece => occurs ","%char piece = false) pieces /\
    (forall others, others <> [] ->
       Forall (fun piece => occurs ","%char piece = false) others ->
       join ","%char others
       = getenv environ "ALLOWED_ORIGINS" "http://localhost:3000,https://localhost:3000" ->
       others = pieces) /\
    allowed_origins environ
    = map PyStr.strip
        (List.filter (fun piece => negb (String.eqb (PyStr.strip piece) EmptyString)) pieces) /\
    Forall (fun origin =>
              origin <> EmptyString /\ occurs ","%char origin = false /\
              starts_space origin = false /\ ends_space origin = false)
      (allowed_origins environ).
Proof.
  intros Henv. unfold allowed_origins. rewrite Henv.
  set (raw := getenv environ _ _). clearbody raw.
  exists (split ","%char raw).
  split; [apply join_split |]. split; [apply split_no_sep |]. split; [| split].
  - intros others Hne Hno Hj. apply (join_unique ","%char); try assumption.
    + apply split_nonempty.
    + apply split_no_sep.
    + now rewrite join_split.
  - f_equal. apply filter_ext. intros piece. now destruct (PyStr.strip piece).
  - pose proof (split_no_sep ","%char raw) as Hsep.
    induction Hsep as [|piece rest Hp _ IH]; simpl; [constructor |].
    destruct (PyStr.truthy (PyStr.strip piece)) eqn:Ht; [| exact IH].
    simpl. constructor; [| exact IH].
    destruct (strip_spec piece) as (_ & Hs & He).
    repeat split; try assumption.
    + intros E. rewrite E in Ht. discriminate.
    + eapply subseq_occurs; [apply strip_subseq | exact Hp].
Qed.

Lemma allowed_origins_production_witness :
  let environ : gmap string string :=
    {[ "ENVIRONMENT" := "production";
       "ALLOWED_ORIGINS" := " https://gurukul.app , ,https://www.gurukul.app" ]} in
  environ !! "ENVIRONMENT" = Some "production" /\
  allowed_origins environ = ["https://gurukul.app"; "https://www.gurukul.app"] /\
  exists pieces,
    join ","%char pieces = " https://gurukul.app , ,https://www.gurukul.app" /\
    allowed_origins environ
    = map PyStr.strip
        (List.filter (fun piece => negb (String.eqb (PyStr.strip piece) EmptyString)) pieces).
Proof.
  intros environ.
  assert (He : environ !! "ENVIRONMENT" = Some "production") by (vm_compute; reflexivity).
  split; [exact He |]. split; [vm_compute; reflexivity |].
  destruct (allowed_origins_production environ He) as (pieces & Hj & _ & _ & Ha & _).
  exists pieces. split; [exact Hj | exact Ha].
Defined.

Example allowed_origins_development :
  allowed_origins {[ "ALLOWED_ORIGINS" := "https://gurukul.app" ]}
  = ["http://localhost:3000"; "https://localhost:3000"; "http://127.0.0.1:3000"].
Proof. vm_compute. reflexivity. Qed.
